(** * setupext.janitor: the extended distutils [clean] command

    A shallow embedding of [src/setupext/janitor.py].  The command object
    [CleanCommand] becomes a record, its three life-cycle methods
    ([initialize_options], [finalize_options], [run]) become functions in a
    state-and-exception monad, the Python [set] of directory names becomes a
    [gset string], and everything the module imports ([os], [os.path],
    [distutils.dir_util], the inherited [clean] command, the distribution's
    command registry) is an interface the development is parametric in. *)

From Stdlib Require Import String Ascii List Bool Arith Lia.
From stdpp Require Import base gmap sets list strings pretty.

#[local] Set Warnings "-clear-no-such-hyp".

Local Open Scope string_scope.
Local Open Scope list_scope.
Local Open Scope stdpp_scope.

(** ** Python strings *)

Module PyStr.

(** [s.startswith(p)] *)
Definition startswith (p s : string) : bool := String.prefix p s.

(** [s.endswith(suffix)]: [suffix] is [s] itself or a suffix of its tail. *)
Fixpoint endswith (suffix s : string) : bool :=
  String.eqb suffix s ||
  match s with
  | EmptyString => false
  | String _ s' => endswith suffix s'
  end.

(** [sub in s] *)
Fixpoint contains (sub s : string) : bool :=
  String.prefix sub s ||
  match s with
  | EmptyString => false
  | String _ s' => contains sub s'
  end.

(** Truth value of a string: the empty string is false. *)
Definition nonempty (s : string) : bool := negb (String.eqb s "").

End PyStr.

(** ** [os] constants and [os.path.join] (POSIX flavour) *)

Module os.

Definition curdir : string := ".".
Definition sep : string := "/".

(** [posixpath.join(a, b)] for one trailing component. *)
Definition path_join (a b : string) : string :=
  if PyStr.startswith sep b then b
  else if negb (PyStr.nonempty a) || PyStr.endswith sep a then a +:+ b
  else a +:+ sep +:+ b.

End os.

(** ** Module constants *)

Definition version_info : list nat := [0; 0; 3].

(** ['.'.join(str(v) for v in version_info)] *)
Definition __version__ : string :=
  String.concat "." (List.map pretty version_info).

(** ** Exceptions and results *)

Inductive exn : Type :=
| DistutilsError (msg : string)
| OSError (msg : string)
| AttributeError (msg : string)
| TypeError (msg : string).

Inductive Result (A : Type) : Type :=
| Ok (a : A)
| Raise (e : exn).
Arguments Ok {A} a.
Arguments Raise {A} e.

Definition is_Ok {A} (r : Result A) : bool :=
  match r with Ok _ => true | Raise _ => false end.

(** [isinstance(e, errors.DistutilsError)] *)
Definition is_DistutilsError (e : exn) : bool :=
  match e with DistutilsError _ => true | _ => false end.

#[global] Instance Result_ret : MRet Result := fun _ a => Ok a.
#[global] Instance Result_bind : MBind Result := fun _ _ f r =>
  match r with Ok a => f a | Raise e => Raise e end.

(** State that survives a raised exception, as mutation does in Python. *)
Definition M (S A : Type) : Type := S → S * Result A.

#[global] Instance M_ret {S} : MRet (M S) := fun _ a s => (s, Ok a).
#[global] Instance M_bind {S} : MBind (M S) := fun _ _ f m s =>
  match m s with
  | (s', Ok a) => f a s'
  | (s', Raise e) => (s', Raise e)
  end.

Definition get {S} : M S S := fun s => (s, Ok s).
Definition modify {S} (f : S → S) : M S unit := fun s => (f s, Ok tt).
Definition raise {S A} (e : exn) : M S A := fun s => (s, Raise e).
(** A computation that only reads the state. *)
Definition liftR {S A} (f : S → Result A) : M S A := fun s => (s, f s).

(** ** Attribute values of foreign command objects *)

Inductive value : Type :=
| VNone
| VStr (s : string).

Definition truthy (v : value) : bool :=
  match v with VNone => false | VStr s => PyStr.nonempty s end.

Definition to_option (v : value) : option string :=
  match v with VNone => None | VStr s => Some s end.

(** A command object of the host: what [ensure_finalized()] does and the
    attributes it carries once finalized. *)
Record Command : Type := {
  ensure_finalized : Result unit;
  attrs : gmap string value
}.

(** [getattr(command, name, None)] *)
Definition getattr_default (command : Command) (name : string) : value :=
  default VNone (attrs command !! name).

(** [getattr(command, name)] *)
Definition getattr (command : Command) (name : string) : Result value :=
  match attrs command !! name with
  | Some v => Ok v
  | None => Raise (AttributeError name)
  end.

(** [self.distribution]: the registry of sub-commands. *)
Record Distribution : Type := {
  get_command_list : list (string * string);
  get_command_obj : string → Result Command
}.

(** ** What the command reports *)

Inductive event : Type :=
| Removing (directory : string)   (* [dir_util.remove_tree] announcing its target *)
| Skipping (dir_name : string)    (* [self.announce] of a skipped target *)
| BaseLog (msg : string).         (* anything the inherited clean reports *)

Definition message (ev : event) : string :=
  match ev with
  | Removing d => "removing '" +:+ d +:+ "' (and everything under it)"
  | Skipping d => "skipping " +:+ d +:+ " since it does not exist"
  | BaseLog m => m
  end.

(** The directory an event is about, if any. *)
Definition subject (ev : event) : option string :=
  match ev with
  | Removing d | Skipping d => Some d
  | BaseLog _ => None
  end.

(** ** Interfaces of the environment *)

(** The part of [os], [os.path] and [distutils.dir_util] the module calls. *)
Class FileSystem (FS : Type) : Type := {
  path_exists : FS → string → bool;
  listdir : FS → string → Result (list string);
  (** the deletion [dir_util.remove_tree] performs outside dry-run *)
  rmtree : string → FS → FS * Result unit;
  listdir_missing : ∀ fs p,
    path_exists fs p = false → ∃ msg, listdir fs p = Raise (OSError msg)
}.

Record World (FS : Type) : Type := mkWorld {
  fs : FS;
  trace : list event
}.
Arguments mkWorld {FS} fs trace.
Arguments fs {FS} w.
Arguments trace {FS} w.

(** The superclass [distutils.command.clean.clean], over its own options [B]. *)
Class BaseClean (FS B : Type) : Type := {
  clean_initialize_options : B;
  clean_finalize_options : B → B * Result unit;
  clean_run : B → bool → M (World FS) unit
}.

(** Iteration order of a Python [set]: some enumeration of its elements. *)
Class SetOrder : Type := {
  set_iter : gset string → list string;
  set_iter_perm : ∀ X, set_iter X ≡ₚ elements X
}.

(** ** The command object *)

Record CleanCommand (B : Type) : Type := mkCleanCommand {
  base : B;                       (* options of the inherited clean *)
  distribution : Distribution;
  dry_run : bool;
  dist : bool;
  eggs : bool;
  egg_base : option string;
  environment : bool;
  virtualenv_dir : option string
}.
Arguments mkCleanCommand {B}.
Arguments base {B} c.
Arguments distribution {B} c.
Arguments dry_run {B} c.
Arguments dist {B} c.
Arguments eggs {B} c.
Arguments egg_base {B} c.
Arguments environment {B} c.
Arguments virtualenv_dir {B} c.

Definition set_base {B} (b : B) (self : CleanCommand B) : CleanCommand B :=
  mkCleanCommand b (distribution self) (dry_run self) (dist self) (eggs self)
                 (egg_base self) (environment self) (virtualenv_dir self).

Definition set_egg_base {B} (v : option string) (self : CleanCommand B) :
    CleanCommand B :=
  mkCleanCommand (base self) (distribution self) (dry_run self) (dist self)
                 (eggs self) v (environment self) (virtualenv_dir self).

Definition set_virtualenv_dir {B} (v : option string) (self : CleanCommand B) :
    CleanCommand B :=
  mkCleanCommand (base self) (distribution self) (dry_run self) (dist self)
                 (eggs self) (egg_base self) (environment self) v.

(** Truth value of an attribute that is [None] or a string. *)
Definition truthy_opt (o : option string) : bool :=
  match o with None => false | Some s => PyStr.nonempty s end.

(** [try: m  except <class>: handler] *)
Definition try_except {S A} (m : M S A) (catches : exn → bool)
    (handler : M S A) : M S A := fun s =>
  match m s with
  | (s', Raise e) => if catches e then handler s' else (s', Raise e)
  | r => r
  end.

(** [for x in l: body(x)] *)
Fixpoint for_each {S A} (body : A → M S unit) (l : list A) : M S unit :=
  match l with
  | [] => mret tt
  | x :: rest => body x ;; for_each body rest
  end.

Definition emit {FS} (ev : event) (w : World FS) : World FS :=
  mkWorld (fs w) (trace w ++ [ev]).

(** A filesystem operation run in the world; the trace is left alone. *)
Definition on_fs {FS} (op : FS → FS * Result unit) : M (World FS) unit :=
  fun w => let '(f, r) := op (fs w) in (mkWorld f (trace w), r).

Section Janitor.
Context {FS : Type} {fsys : FileSystem FS}.
Context {B : Type} {clean : BaseClean FS B} {order : SetOrder}.

Implicit Types (self : CleanCommand B) (w : World FS).
Implicit Types (dir_names : gset string).

(** *** [initialize_options] *)

Definition initialize_options self : CleanCommand B :=
  mkCleanCommand clean_initialize_options (distribution self) (dry_run self)
                 false false None false None.

(** *** [finalize_options] *)

(** [_CleanCommand.finalize_options(self)] *)
Definition base_finalize_options : M (CleanCommand B) unit := fun self =>
  let '(b, r) := clean_finalize_options (base self) in (set_base b self, r).

(** Modelled from the spec: the inherited
    [Command.set_undefined_options(src_cmd, (src, dst))] lives in distutils,
    not in this repository.  Here at the one pair the module passes,
    [('egg_base', 'egg_base')]: fetch and finalize the source command, then
    copy the option only where the destination is still [None]. *)
Definition set_undefined_options (src_cmd : string) :
    M (CleanCommand B) unit :=
  self ← get;
  src_cmd_obj ← liftR (fun _ => get_command_obj (distribution self) src_cmd);
  liftR (fun _ => ensure_finalized src_cmd_obj) ;;
  match egg_base self with
  | None =>
      v ← liftR (fun _ => getattr src_cmd_obj "egg_base");
      modify (set_egg_base (to_option v))
  | Some _ => mret tt
  end.

Definition finalize_options (environ : gmap string string) :
    M (CleanCommand B) unit :=
  base_finalize_options ;;
  try_except (set_undefined_options "egg_info") is_DistutilsError (mret tt) ;;
  self ← get;
  (match egg_base self with
   | None => modify (set_egg_base (Some os.curdir))
   | Some _ => mret tt
   end) ;;
  self ← get;
  if environment self && bool_decide (virtualenv_dir self = None)
  then modify (set_virtualenv_dir (environ !! "VIRTUAL_ENV"))
  else mret tt.

(** *** [run]: building the set of directory names *)

(** The loop over [get_command_list()] under [if self.dist]. *)
Fixpoint add_dist_dirs (d : Distribution) (cmds : list (string * string))
    dir_names : Result (gset string) :=
  match cmds with
  | [] => Ok dir_names
  | (cmd_name, _) :: rest =>
      if PyStr.contains "dist" cmd_name then
        command ← get_command_obj d cmd_name;
        ensure_finalized command ;;
        match getattr_default command "dist_dir" with
        | VStr s =>
            if PyStr.nonempty s then add_dist_dirs d rest ({[ s ]} ∪ dir_names)
            else add_dist_dirs d rest dir_names
        | VNone => add_dist_dirs d rest dir_names
        end
      else add_dist_dirs d rest dir_names
  end.

(** [os.path.join(self.egg_base, name)]; joining onto [None] is a
    [TypeError]. *)
Definition join_egg_base (eb : option string) (name : string) :
    Result string :=
  match eb with
  | Some a => Ok (os.path_join a name)
  | None => Raise (TypeError "expected str, bytes or os.PathLike object")
  end.

(** The loop over [os.listdir(self.egg_base)]. *)
Fixpoint add_egg_infos (eb : option string) (names : list string)
    dir_names : Result (gset string) :=
  match names with
  | [] => Ok dir_names
  | name :: rest =>
      if PyStr.endswith ".egg-info" name then
        p ← join_egg_base eb name;
        add_egg_infos eb rest ({[ p ]} ∪ dir_names)
      else add_egg_infos eb rest dir_names
  end.

(** The loop over [os.listdir(os.curdir)]. *)
Fixpoint add_eggs (names : list string) dir_names : gset string :=
  match names with
  | [] => dir_names
  | name :: rest =>
      if PyStr.endswith ".egg" name then add_eggs rest ({[ name ]} ∪ dir_names)
      else add_eggs rest dir_names
  end.

(** [if self.dist: ...] *)
Definition dist_step self dir_names : Result (gset string) :=
  if dist self
  then add_dist_dirs (distribution self)
                     (get_command_list (distribution self)) dir_names
  else Ok dir_names.

(** [if self.eggs: ...]; [os.listdir(None)] lists the current directory. *)
Definition eggs_step self (f : FS) dir_names : Result (gset string) :=
  if eggs self then
    names ← listdir f (default os.curdir (egg_base self));
    dir_names ← add_egg_infos (egg_base self) names dir_names;
    names' ← listdir f os.curdir;
    Ok (add_eggs names' dir_names)
  else Ok dir_names.

(** [if self.environment and self.virtualenv_dir: ...] *)
Definition environment_step self dir_names : gset string :=
  if environment self && truthy_opt (virtualenv_dir self)
  then match virtualenv_dir self with
       | Some v => {[ v ]} ∪ dir_names
       | None => dir_names
       end
  else dir_names.

(** Lines 64-82: the whole of [dir_names] before the removal loop. *)
Definition collect_dir_names self (f : FS) : Result (gset string) :=
  dir_names ← dist_step self ∅;
  dir_names ← eggs_step self f dir_names;
  Ok (environment_step self dir_names).

(** *** [run]: the removal loop *)

(** Modelled from the spec: [dir_util.remove_tree(directory, dry_run=...)]
    lives in distutils, not in this repository.  It announces its target,
    then deletes it unless in dry-run. *)
Definition remove_tree (directory : string) (dry : bool) :
    M (World FS) unit :=
  modify (emit (Removing directory)) ;;
  if dry then mret tt else on_fs (rmtree directory).

(** Body of [for dir_name in dir_names]. *)
Definition clean_dir (dry : bool) (dir_name : string) : M (World FS) unit :=
  w ← get;
  if path_exists (fs w) dir_name
  then remove_tree dir_name dry
  else modify (emit (Skipping dir_name)).

Definition run self : M (World FS) unit :=
  clean_run (base self) (dry_run self) ;;
  dir_names ← liftR (fun w => collect_dir_names self (fs w));
  for_each (clean_dir (dry_run self)) (set_iter dir_names).

End Janitor.

(** ** Class attributes: [_set_options]

    [user_options] and [boolean_options] are class attributes holding list
    objects.  Lists are kept in a heap by identity, so that a slice copy
    ([xs[:]]) and an in-place [extend] can be told apart from aliasing. *)

Module Options.

(** An element of an option list: a [(long, short, help)] triple of
    [user_options], or a name of [boolean_options]. *)
Inductive item : Type :=
| Opt (long : string) (short : option string) (help : string)
| Name (name : string).

Inductive cls : Type :=
| Base    (* [_CleanCommand] *)
| Sub.    (* [CleanCommand] *)

Record Classes : Type := mkClasses {
  heap : gmap nat (list item);
  base_dict : gmap string nat;   (* attributes visible on [_CleanCommand] *)
  sub_dict : gmap string nat     (* attributes [CleanCommand] defines itself *)
}.

(** Attribute lookup on a class: its own dictionary, then the base's. *)
Definition resolve_attr (c : cls) (attr : string) (st : Classes) : option nat :=
  match c with
  | Base => base_dict st !! attr
  | Sub => match sub_dict st !! attr with
           | Some l => Some l
           | None => base_dict st !! attr
           end
  end.

(** [<class>.<attr>] *)
Definition class_getattr (c : cls) (attr : string) : M Classes nat := fun st =>
  match resolve_attr c attr st with
  | Some l => (st, Ok l)
  | None => (st, Raise (AttributeError attr))
  end.

(** [CleanCommand.<attr> = <list>] *)
Definition class_setattr (attr : string) (l : nat) : M Classes unit :=
  modify (fun st => mkClasses (heap st) (base_dict st) (<[attr := l]> (sub_dict st))).

(** [xs[:]]: a new list object with the same elements. *)
Definition slice_copy (l : nat) : M Classes nat := fun st =>
  match heap st !! l with
  | Some xs =>
      let l' := fresh (dom (heap st)) in
      (mkClasses (<[l' := xs]> (heap st)) (base_dict st) (sub_dict st), Ok l')
  | None => (st, Raise (TypeError "object is not subscriptable"))
  end.

(** [xs.extend(ys)]: the list object itself grows. *)
Definition list_extend (l : nat) (ys : list item) : M Classes unit := fun st =>
  match heap st !! l with
  | Some xs =>
      (mkClasses (<[l := xs ++ ys]> (heap st)) (base_dict st) (sub_dict st), Ok tt)
  | None => (st, Raise (AttributeError "extend"))
  end.

Definition new_user_options : list item :=
  [Opt "dist" (Some "d") "remove distribution directory";
   Opt "eggs" None "remove egg and egg-info directories";
   Opt "environment" (Some "E") "remove virtual environment directory";
   Opt "egg-base=" (Some "e")
       "directory containing .egg-info directories (default: top of the source tree)";
   Opt "virtualenv-dir=" None
       "root directory for the virtual directory (default: value of VIRTUAL_ENV environment variable)"].

Definition new_boolean_options : list item :=
  [Name "dist"; Name "eggs"; Name "environment"].

Definition _set_options : M Classes unit :=
  l ← class_getattr Base "user_options";
  l' ← slice_copy l;
  class_setattr "user_options" l' ;;
  l ← class_getattr Sub "user_options";
  list_extend l new_user_options ;;
  l ← class_getattr Base "boolean_options";
  l' ← slice_copy l;
  class_setattr "boolean_options" l' ;;
  l ← class_getattr Sub "boolean_options";
  list_extend l new_boolean_options.

(** The list a class attribute currently denotes. *)
Definition class_list (c : cls) (attr : string) (st : Classes) :
    option (list item) :=
  l ← resolve_attr c attr st; heap st !! l.

End Options.

(** ** A concrete environment

    A directory tree whose root is both [/] and the current directory, a
    do-nothing superclass and two enumeration orders.  The general theorems
    below hold for every instance of the interfaces; these instances are the
    ones they are evaluated on. *)

Module TreeFS.

#[local] Set Warnings "-register-all".
Inductive node : Type :=
| File
| Dir (entries : list (string * node)).

(** Components of a path, split at ['/']. *)
Fixpoint components (s cur : string) : list string :=
  match s with
  | EmptyString => [cur]
  | String c s' =>
      if Ascii.eqb c "/" then cur :: components s' ""
      else components s' (cur +:+ String c "")
  end.

Definition proper (c : string) : bool :=
  negb (String.eqb c "") && negb (String.eqb c ".").

Definition split (p : string) : list string :=
  List.filter proper (components p "").

Fixpoint find_entry (name : string) (es : list (string * node)) :
    option node :=
  match es with
  | [] => None
  | (n, x) :: rest => if String.eqb n name then Some x else find_entry name rest
  end.

Definition drop_entry (name : string) (es : list (string * node)) :
    list (string * node) :=
  List.filter (fun e => negb (String.eqb (fst e) name)) es.

Definition set_entry (name : string) (x : node) (es : list (string * node)) :
    list (string * node) :=
  List.map (fun e => if String.eqb (fst e) name then (name, x) else e) es.

Fixpoint resolve (comps : list string) (n : node) : option node :=
  match comps with
  | [] => Some n
  | c :: cs =>
      match n with
      | Dir es => match find_entry c es with
                  | Some child => resolve cs child
                  | None => None
                  end
      | File => None
      end
  end.

(** Remove the directory at [comps] with everything under it. *)
Fixpoint remove_at (comps : list string) (n : node) : option node :=
  match comps, n with
  | c :: cs, Dir es =>
      match find_entry c es with
      | Some child =>
          match cs with
          | [] => match child with
                  | Dir _ => Some (Dir (drop_entry c es))
                  | File => None
                  end
          | _ :: _ => match remove_at cs child with
                      | Some child' => Some (Dir (set_entry c child' es))
                      | None => None
                      end
          end
      | None => None
      end
  | _, _ => None
  end.

Definition exists_ (t : node) (p : string) : bool :=
  match resolve (split p) t with Some _ => true | None => false end.

Definition list_ (t : node) (p : string) : Result (list string) :=
  match resolve (split p) t with
  | Some (Dir es) => Ok (List.map fst es)
  | Some File => Raise (OSError "Not a directory")
  | None => Raise (OSError "No such file or directory")
  end.

Definition rmtree_ (p : string) (t : node) : node * Result unit :=
  match remove_at (split p) t with
  | Some t' => (t', Ok tt)
  | None => (t, Raise (OSError "cannot remove"))
  end.

#[global] Instance tree_fs : FileSystem node.
Proof.
  refine {| path_exists := exists_; listdir := list_; rmtree := rmtree_ |}.
  intros t p. unfold exists_, list_.
  destruct (resolve (split p) t); [discriminate|].
  intros _. eexists. reflexivity.
Defined.

(** A superclass with no options that finds nothing to clean. *)
#[global] Instance null_clean : BaseClean node unit := {|
  clean_initialize_options := tt;
  clean_finalize_options := fun b => (b, Ok tt);
  clean_run := fun _ _ => mret tt
|}.

Definition dir (names : list string) : node :=
  Dir (List.map (fun n => (n, Dir [])) names).

End TreeFS.

(** Enumeration in the order of [elements]. *)
Definition elements_order : SetOrder :=
  {| set_iter := elements; set_iter_perm := fun X => reflexivity _ |}.

(** Enumeration in the opposite order. *)
Definition reverse_order : SetOrder :=
  {| set_iter := fun X => reverse (elements X);
     set_iter_perm := fun X => reverse_Permutation (elements X) |}.

(** The directories a stretch of the trace deals with, in order. *)
Definition processed (evs : list event) : list string := omap subject evs.

(** Does every removal in the list succeed and leave the directories still
    to come in existence? *)
Fixpoint removals_independent {FS} {fsys : FileSystem FS} (l : list string)
    (f : FS) : bool :=
  match l with
  | [] => true
  | d :: rest =>
      match rmtree d f with
      | (f', Ok _) => forallb (path_exists f') rest && removals_independent rest f'
      | (_, Raise _) => false
      end
  end.

(** A sub-command the [dist] loop looks at and takes a directory from. *)
Definition offers_dist_dir (d : Distribution) (name : string) (p : string) :
    Prop :=
  PyStr.contains "dist" name = true ∧
  ∃ c, get_command_obj d name = Ok c ∧
       attrs c !! "dist_dir" = Some (VStr p) ∧ p ≠ "".

(** Does [finalize_options] go on after this outcome of its [try] block?
    It does on success and on an exception the [except] clause catches. *)
Definition swallowed (r : Result unit) : bool :=
  match r with Ok _ => true | Raise e => is_DistutilsError e end.

(** Lines 55-59 of [finalize_options] as a function of the command. *)
Definition apply_defaults {B} (environ : gmap string string)
    (self : CleanCommand B) : CleanCommand B :=
  let self := match egg_base self with
              | None => set_egg_base (Some os.curdir) self
              | Some _ => self
              end in
  if environment self && bool_decide (virtualenv_dir self = None)
  then set_virtualenv_dir (environ !! "VIRTUAL_ENV") self
  else self.

(** Agreement on everything but the inherited options. *)
Definition same_options {B} (a b : CleanCommand B) : Prop :=
  distribution a = distribution b ∧ dry_run a = dry_run b ∧
  dist a = dist b ∧ eggs a = eggs b ∧ egg_base a = egg_base b ∧
  environment a = environment b ∧ virtualenv_dir a = virtualenv_dir b.

(** The same command attached to another distribution. *)
Definition set_distribution {B} (d : Distribution) (self : CleanCommand B) :
    CleanCommand B :=
  mkCleanCommand (base self) d (dry_run self) (dist self) (eggs self)
                 (egg_base self) (environment self) (virtualenv_dir self).

(** The same command with the dry-run switch set to [dry]. *)
Definition set_dry_run {B} (dry : bool) (self : CleanCommand B) :
    CleanCommand B :=
  mkCleanCommand (base self) (distribution self) dry (dist self) (eggs self)
                 (egg_base self) (environment self) (virtualenv_dir self).

(** The directories [remove_tree] was called on, in order. *)
Definition removed (evs : list event) : list string :=
  omap (fun ev => match ev with Removing d => Some d | _ => None end) evs.

(** What the loop reports for a directory on a given filesystem. *)
Definition report {FS} {fsys : FileSystem FS} (f : FS) (d : string) : event :=
  if path_exists f d then Removing d else Skipping d.

(** Two laws a filesystem may obey: a successful removal leaves its target
    absent, and no removal brings a path into existence. *)
Definition removal_removes (FS : Type) {fsys : FileSystem FS} : Prop :=
  ∀ d (f f' : FS), rmtree d f = (f', Ok tt) → path_exists f' d = false.

Definition removal_only_removes (FS : Type) {fsys : FileSystem FS} : Prop :=
  ∀ d (f : FS) p, path_exists (rmtree d f).1 p = true → path_exists f p = true.

(** *** Example data *)

Module Ex.
Import TreeFS.

(** A project with two distribution directories (one holding an
    [.egg-info]), an egg, a package directory and a virtual environment. *)
Definition tree : node :=
  Dir [("build", Dir [("out", Dir [])]);
       ("dist", Dir [("foo.egg-info", Dir []); ("foo-1.0.tar.gz", File)]);
       ("baz.egg", Dir []);
       ("pkg", Dir [("foo.egg-info", Dir []); ("bar.txt", File)]);
       ("setup.py", File);
       ("tmp", Dir [("venv", Dir [("bin", Dir [])])])].

Definition world : World node := mkWorld tree [].

Definition command_with (dist_dir : option value) : Command :=
  {| ensure_finalized := Ok tt;
     attrs := match dist_dir with
              | Some v => {[ "dist_dir" := v ]}
              | None => ∅
              end |}.

(** [sdist] writes to [dist] and [bdist] to [build/out]; [bdist_dumb] has
    no [dist_dir] attribute; [bdist_rpm] has an empty one; [egg_info] is
    whatever the argument says. *)
Definition registry_with (egg_info : Result Command) : Distribution :=
  {| get_command_list :=
       [("build", "build everything"); ("sdist", "source distribution");
        ("bdist", "built distribution"); ("bdist_dumb", "dumb distribution");
        ("bdist_rpm", "RPM distribution")];
     get_command_obj := fun name =>
       if String.eqb name "sdist" then Ok (command_with (Some (VStr "dist")))
       else if String.eqb name "bdist"
       then Ok (command_with (Some (VStr "build/out")))
       else if String.eqb name "bdist_dumb" then Ok (command_with None)
       else if String.eqb name "bdist_rpm" then Ok (command_with (Some (VStr "")))
       else if String.eqb name "build" then Ok (command_with None)
       else if String.eqb name "egg_info" then egg_info
       else Raise (DistutilsError ("invalid command '" +:+ name +:+ "'")) |}.

(** Plain distutils: there is no [egg_info] command. *)
Definition registry : Distribution :=
  registry_with (Raise (DistutilsError "invalid command 'egg_info'")).

(** An [egg_info] command with [egg_base = 'src']. *)
Definition registry_src : Distribution :=
  registry_with (Ok {| ensure_finalized := Ok tt;
                       attrs := {[ "egg_base" := VStr "src" ]} |}).

(** An [egg_info] command that has no [egg_base] attribute. *)
Definition registry_bare : Distribution :=
  registry_with (Ok {| ensure_finalized := Ok tt; attrs := ∅ |}).

Definition cmd_in (reg : Distribution) (dry d e : bool) (eb : option string)
    (env : bool) (vd : option string) : CleanCommand unit :=
  mkCleanCommand tt reg dry d e eb env vd.

Definition cmd := cmd_in registry.

Definition venv : gmap string string := {[ "VIRTUAL_ENV" := "/tmp/venv" ]}.

(** Every flag set, in dry-run or not. *)
Definition all_flags (dry : bool) : CleanCommand unit :=
  cmd dry true true (Some "pkg") true (Some "/tmp/venv").

Definition all_targets : gset string :=
  {[ "dist"; "build/out"; "pkg/foo.egg-info"; "baz.egg"; "/tmp/venv" ]}.

(** [--dist --eggs --egg-base=dist]: one directory inside another. *)
Definition nested (dry : bool) : CleanCommand unit :=
  cmd dry true true (Some "dist") false None.

Definition nested_targets : gset string :=
  {[ "dist"; "build/out"; "dist/foo.egg-info"; "baz.egg" ]}.

(** The tree once [dist] is gone. *)
Definition tree_without_dist : node :=
  Dir [("build", Dir [("out", Dir [])]);
       ("baz.egg", Dir []);
       ("pkg", Dir [("foo.egg-info", Dir []); ("bar.txt", File)]);
       ("setup.py", File);
       ("tmp", Dir [("venv", Dir [("bin", Dir [])])])].

End Ex.

(** *** More example data *)

Module Ex2.
Import TreeFS Options.

(** [bdist_msi] cannot be set up on this platform. *)
Definition registry_broken : Distribution :=
  {| get_command_list :=
       [("sdist", "source distribution"); ("bdist_msi", "MSI installer");
        ("bdist", "built distribution")];
     get_command_obj := fun name =>
       if String.eqb name "sdist" then Ok (Ex.command_with (Some (VStr "dist")))
       else Raise (DistutilsError ("cannot set up '" +:+ name +:+ "'")) |}.

(** As [Ex.registry], except that asking for [build] fails. *)
Definition registry_strict : Distribution :=
  {| get_command_list := get_command_list Ex.registry;
     get_command_obj := fun name =>
       if String.eqb name "build" then Raise (DistutilsError "no build")
       else get_command_obj Ex.registry name |}.

(** A project whose egg is a zip file. *)
Definition tree_zipped : node :=
  Dir [("dist", Dir []); ("baz.egg", File); ("build", Dir [("out", Dir [])])].

(** The world after [Ex.all_flags false] has run on [Ex.world]. *)
Definition world_after : World node :=
  Eval vm_compute in (run (order := elements_order) (Ex.all_flags false) Ex.world).1.

(** What a second run collects there. *)
Definition targets_after : gset string := {[ "dist"; "build/out"; "/tmp/venv" ]}.

(** The option lists of [distutils.command.clean.clean]. *)
Definition clean_user_options : list item :=
  [Opt "build-base=" (Some "b") "base build directory (default: 'build.build-base')";
   Opt "build-lib=" None "build directory for all modules (default: 'build.build-lib')";
   Opt "build-temp=" (Some "t") "temporary build directory (default: 'build.build-temp')";
   Opt "build-scripts=" None "build directory for scripts (default: 'build.build-scripts')";
   Opt "bdist-base=" None "temporary directory for built distributions";
   Opt "all" (Some "a") "remove all build output, not just temporary by-products"].

Definition clean_boolean_options : list item := [Name "all"].

(** The classes as they are when the module body reaches [_set_options()]:
    [CleanCommand] inherits both attributes. *)
Definition classes : Classes :=
  mkClasses {[ 0 := clean_user_options; 1 := clean_boolean_options ]}
            {[ "user_options" := 0; "boolean_options" := 1 ]}
            ∅.

End Ex2.

(** ** Properties *)

(** Unfolding the monad of the embedding. *)
Ltac unfold_monad :=
  unfold mbind, M_bind, Result_bind, mret, M_ret, Result_ret, get, modify,
         raise, liftR, on_fs, try_except in *.

Lemma for_each_cons {S A} (body : A → M S unit) (x : A) (rest : list A) s :
  for_each body (x :: rest) s =
  match body x s with
  | (s', Ok _) => for_each body rest s'
  | (s', Raise e) => (s', Raise e)
  end.
Proof. reflexivity. Qed.

Lemma for_each_app {S A} (body : A → M S unit) (l1 l2 : list A) s :
  for_each body (l1 ++ l2) s =
  match for_each body l1 s with
  | (s', Ok _) => for_each body l2 s'
  | (s', Raise e) => (s', Raise e)
  end.
Proof.
  revert s. induction l1 as [|x l1 IH]; intros s; [reflexivity|].
  rewrite <- app_comm_cons, !for_each_cons.
  destruct (body x s) as [s' [[]|e]]; [apply IH|reflexivity].
Qed.

Section Loop.
Context {FS : Type} {fsys : FileSystem FS}.
Context {B : Type} {clean : BaseClean FS B} {order : SetOrder}.

Implicit Types (w : World FS) (l : list string) (d : string).

Lemma clean_dir_missing dry d w :
  path_exists (fs w) d = false →
  clean_dir dry d w = (emit (Skipping d) w, Ok tt).
Proof. intros E. unfold clean_dir. unfold_monad. by rewrite E. Qed.

Lemma clean_dir_dry d w :
  path_exists (fs w) d = true →
  clean_dir true d w = (emit (Removing d) w, Ok tt).
Proof. intros E. unfold clean_dir, remove_tree. unfold_monad. by rewrite E. Qed.

Lemma clean_dir_wet d w :
  path_exists (fs w) d = true →
  clean_dir false d w =
  (mkWorld (rmtree d (fs w)).1 (trace w ++ [Removing d]), (rmtree d (fs w)).2).
Proof.
  intros E. unfold clean_dir, remove_tree. unfold_monad. rewrite E. simpl.
  by destruct (rmtree d (fs w)).
Qed.

(** One pass of the loop body: what it does to the filesystem and whether
    it raises depend on the filesystem alone; it appends one event, about
    the directory at hand. *)
Lemma clean_dir_step dry d w :
  ∃ ev, trace (clean_dir dry d w).1 = trace w ++ [ev] ∧ subject ev = Some d.
Proof.
  destruct (path_exists (fs w) d) eqn:E.
  - destruct dry.
    + rewrite clean_dir_dry by done. by eexists.
    + rewrite clean_dir_wet by done. by eexists.
  - rewrite clean_dir_missing by done. by eexists.
Qed.

Lemma clean_dir_fs_only dry d w w' :
  fs w = fs w' →
  fs (clean_dir dry d w).1 = fs (clean_dir dry d w').1 ∧
  (clean_dir dry d w).2 = (clean_dir dry d w').2.
Proof.
  intros E. destruct (path_exists (fs w) d) eqn:Ex.
  - assert (path_exists (fs w') d = true) as Ex' by by rewrite <- E.
    destruct dry.
    + by rewrite !clean_dir_dry.
    + rewrite !clean_dir_wet by done. simpl. by rewrite E.
  - assert (path_exists (fs w') d = false) as Ex' by by rewrite <- E.
    by rewrite !clean_dir_missing.
Qed.

Lemma loop_fs_only dry l w w' :
  fs w = fs w' →
  fs (for_each (clean_dir dry) l w).1 = fs (for_each (clean_dir dry) l w').1 ∧
  (for_each (clean_dir dry) l w).2 = (for_each (clean_dir dry) l w').2.
Proof.
  revert w w'. induction l as [|d l IH]; intros w w' E; [done|].
  rewrite !for_each_cons.
  destruct (clean_dir_fs_only dry d w w' E) as [Ef Er].
  destruct (clean_dir dry d w) as [w1 r1], (clean_dir dry d w') as [w1' r1'].
  simpl in *. subst r1'. destruct r1 as [[]|e]; [by apply IH|done].
Qed.

(** The loop handles the directories in order, one event each, and stops
    at the first exception. *)
Lemma loop_processed dry l w :
  ∃ evs, trace (for_each (clean_dir dry) l w).1 = trace w ++ evs ∧
         processed evs `prefix_of` l.
Proof.
  revert w. induction l as [|d l IH]; intros w.
  - exists []. simpl. split; [by rewrite app_nil_r|done].
  - rewrite for_each_cons.
    destruct (clean_dir_step dry d w) as (ev & Et & Es).
    destruct (clean_dir dry d w) as [w1 [[]|e]]; simpl in Et.
    + destruct (IH w1) as (evs & Et' & Hp).
      exists (ev :: evs). split.
      * rewrite Et', Et, <- app_assoc. done.
      * unfold processed. simpl. rewrite Es. by apply prefix_cons.
    + exists [ev]. split; [done|].
      unfold processed. simpl. rewrite Es. apply prefix_cons, prefix_nil.
Qed.

(** In dry-run the loop leaves the filesystem alone and never raises. *)
Lemma loop_dry_fs l w :
  fs (for_each (clean_dir true) l w).1 = fs w ∧
  (for_each (clean_dir true) l w).2 = Ok tt.
Proof.
  revert w. induction l as [|d l IH]; intros w; [done|].
  rewrite for_each_cons. destruct (path_exists (fs w) d) eqn:E.
  - rewrite clean_dir_dry by done. apply (IH (emit (Removing d) w)).
  - rewrite clean_dir_missing by done. apply (IH (emit (Skipping d) w)).
Qed.

Lemma loop_dry_all_exist l w :
  Forall (fun d => path_exists (fs w) d = true) l →
  for_each (clean_dir true) l w =
  (mkWorld (fs w) (trace w ++ List.map Removing l), Ok tt).
Proof.
  revert w. induction l as [|d l IH]; intros w Hall.
  - simpl. rewrite app_nil_r. by destruct w.
  - inversion Hall as [|? ? Hd Hl]; subst.
    rewrite for_each_cons, clean_dir_dry by done.
    rewrite IH by done. simpl. by rewrite <- app_assoc.
Qed.

(** [run] once the inherited clean has returned. *)
Lemma run_after_base self w w1 :
  clean_run (base self) (dry_run self) w = (w1, Ok tt) →
  run self w =
  match collect_dir_names self (fs w1) with
  | Ok dir_names => for_each (clean_dir (dry_run self)) (set_iter dir_names) w1
  | Raise e => (w1, Raise e)
  end.
Proof. intros E. unfold run. unfold_monad. by rewrite E. Qed.

Lemma set_iter_NoDup (X : gset string) : NoDup (set_iter X).
Proof. rewrite set_iter_perm. apply NoDup_elements. Qed.

Lemma elem_of_set_iter (X : gset string) d : d ∈ set_iter X ↔ d ∈ X.
Proof. rewrite set_iter_perm. apply elem_of_elements. Qed.

End Loop.

Section Removal.
Context {FS : Type} {fsys : FileSystem FS}.
Context {B : Type} {clean : BaseClean FS B} {order : SetOrder}.

Implicit Types (self : CleanCommand B) (w : World FS) (l : list string).

Lemma collect_no_flags self (f : FS) :
  dist self = false → eggs self = false → environment self = false →
  collect_dir_names self f = Ok ∅.
Proof.
  intros Hd He Hv.
  unfold collect_dir_names, dist_step, eggs_step, environment_step.
  by rewrite Hd, He, Hv.
Qed.

Lemma set_iter_empty : set_iter ∅ = [].
Proof.
  apply Permutation_nil_r. rewrite set_iter_perm. by rewrite elements_empty.
Qed.

(** C1.  With [dist], [eggs] and [environment] all false the set of
    directory names is empty and [run] is the inherited clean's [run]:
    whatever world and outcome the base leaves is the world and outcome of
    the whole command, so this command deletes nothing and reports
    nothing of its own. *)
Theorem run_without_flags self w :
  dist self = false → eggs self = false → environment self = false →
  (∀ f : FS, collect_dir_names self f = Ok ∅) ∧
  run self w = clean_run (base self) (dry_run self) w.
Proof.
  intros Hd He Hv. split; [intros f; by apply collect_no_flags|].
  unfold run. unfold_monad.
  destruct (clean_run (base self) (dry_run self) w) as [w1 [[]|e]]; [|done].
  rewrite collect_no_flags by done. by rewrite set_iter_empty.
Qed.

Lemma loop_wet_independent l w :
  forallb (path_exists (fs w)) l = true →
  removals_independent l (fs w) = true →
  (for_each (clean_dir false) l w).2 = Ok tt ∧
  trace (for_each (clean_dir false) l w).1 = trace w ++ List.map Removing l.
Proof.
  revert w. induction l as [|d l IH]; intros w Hex Hind.
  - simpl. by rewrite app_nil_r.
  - simpl in Hex, Hind. apply andb_prop in Hex as [Hd Hl].
    rewrite for_each_cons, clean_dir_wet by done.
    destruct (rmtree d (fs w)) as [f' [[]|e]]; [|done]. simpl.
    apply andb_prop in Hind as [Hl' Hind].
    destruct (IH (mkWorld f' (trace w ++ [Removing d]))) as [Hr Ht]; [done..|].
    split; [done|]. rewrite Ht. simpl. by rewrite <- app_assoc.
Qed.

(** The dry-run switch plays no part in collecting the directory names. *)
Lemma collect_dir_names_dry_run dry self (f : FS) :
  collect_dir_names (set_dry_run dry self) f = collect_dir_names self f.
Proof. reflexivity. Qed.

(** C2, as amended.  In dry-run, with every collected directory present
    once the inherited clean has returned, [run] leaves the filesystem as
    the base left it, raises nothing, and adds to the base's reports
    exactly one removal per directory and no skip.  The same command run
    with the dry-run switch off, from the same world, returns normally and
    adds the same reports to those of its own inherited clean, provided it
    collects the same directories, they all exist when its loop starts, and
    each of its removals succeeds and leaves the directories still to come
    in existence. *)
Theorem dry_run_keeps_filesystem self w w1 dir_names :
  dry_run self = true →
  clean_run (base self) true w = (w1, Ok tt) →
  collect_dir_names self (fs w1) = Ok dir_names →
  (∀ d, d ∈ dir_names → path_exists (fs w1) d = true) →
  run self w =
    (mkWorld (fs w1) (trace w1 ++ List.map Removing (set_iter dir_names)),
     Ok tt) ∧
  (∀ w1',
     clean_run (base self) false w = (w1', Ok tt) →
     collect_dir_names self (fs w1') = Ok dir_names →
     (∀ d, d ∈ dir_names → path_exists (fs w1') d = true) →
     removals_independent (set_iter dir_names) (fs w1') = true →
     (run (set_dry_run false self) w).2 = Ok tt ∧
     trace (run (set_dry_run false self) w).1 =
       trace w1' ++ List.map Removing (set_iter dir_names)).
Proof.
  intros Hdry Hbase Hcol Hex. split.
  - assert (Forall (fun d => path_exists (fs w1) d = true) (set_iter dir_names))
      as Hall.
    { apply Forall_forall. intros d Hd. apply Hex. by apply elem_of_set_iter. }
    rewrite (run_after_base self w w1) by by rewrite Hdry.
    rewrite Hcol, Hdry. by apply loop_dry_all_exist.
  - intros w1' Hbase' Hcol' Hex' Hind.
    rewrite (run_after_base (set_dry_run false self) w w1') by done.
    rewrite collect_dir_names_dry_run, Hcol'. simpl.
    apply loop_wet_independent; [|done].
    apply forallb_forall. intros d Hd. apply Hex'.
    apply elem_of_set_iter. by apply list_elem_of_In.
Qed.

(** C6, as amended.  Take any directory [d] of the collected set, reached
    with no removal before it having raised.  If [d] is absent when its
    turn comes, [run] reports it as skipped and raises nothing: the loop up
    to and including [d] has come through on the same filesystem, and [run]
    goes on with the directories after [d].  If [d] is present, [run]
    hands it to [remove_tree]: outside dry-run the deletion is carried out
    and [run] goes on with the rest, unless the deletion raises, which ends
    [run] there with the rest left in place; in dry-run the removal is
    only reported. *)
Theorem missing_target_skipped_others_removed self w w1 dir_names l1 d l2 wa :
  clean_run (base self) (dry_run self) w = (w1, Ok tt) →
  collect_dir_names self (fs w1) = Ok dir_names →
  set_iter dir_names = l1 ++ d :: l2 →
  for_each (clean_dir (dry_run self)) l1 w1 = (wa, Ok tt) →
  (path_exists (fs wa) d = false →
     run self w =
       for_each (clean_dir (dry_run self)) l2 (emit (Skipping d) wa)) ∧
  (path_exists (fs wa) d = false →
     for_each (clean_dir (dry_run self)) (l1 ++ [d]) w1 =
       (emit (Skipping d) wa, Ok tt)) ∧
  (path_exists (fs wa) d = true → dry_run self = false →
     run self w =
       match rmtree d (fs wa) with
       | (f', Ok _) =>
           for_each (clean_dir false) l2 (mkWorld f' (trace wa ++ [Removing d]))
       | (f', Raise e) => (mkWorld f' (trace wa ++ [Removing d]), Raise e)
       end) ∧
  (path_exists (fs wa) d = true → dry_run self = true →
     run self w = for_each (clean_dir true) l2 (emit (Removing d) wa)).
Proof.
  intros Hbase Hcol Hiter Hl1.
  assert (run self w =
          match clean_dir (dry_run self) d wa with
          | (w', Ok _) => for_each (clean_dir (dry_run self)) l2 w'
          | (w', Raise e) => (w', Raise e)
          end) as Hrun.
  { rewrite (run_after_base self w w1), Hcol, Hiter by done.
    by rewrite for_each_app, Hl1, for_each_cons. }
  split; [|split; [|split]].
  - intros Hd. by rewrite Hrun, clean_dir_missing.
  - intros Hd. rewrite for_each_app, Hl1, for_each_cons.
    by rewrite clean_dir_missing.
  - intros Hd Hdry. rewrite Hrun, Hdry, clean_dir_wet by done.
    by destruct (rmtree d (fs wa)) as [f' [[]|e]].
  - intros Hd Hdry. by rewrite Hrun, Hdry, clean_dir_dry.
Qed.

(** C8.  The directory names form a set: its enumeration has no
    repetition and holds exactly the members, a source that contributes a
    name already present leaves the set as it is, and [run] deals with
    each name at most once (the directories its events are about form a
    repetition-free initial stretch of the enumeration). *)
Theorem targets_handled_once self w w1 dir_names :
  clean_run (base self) (dry_run self) w = (w1, Ok tt) →
  collect_dir_names self (fs w1) = Ok dir_names →
  NoDup (set_iter dir_names) ∧
  (∀ d, d ∈ set_iter dir_names ↔ d ∈ dir_names) ∧
  (∀ d (X : gset string),
     virtualenv_dir self = Some d → d ∈ X → environment_step self X = X) ∧
  ∃ evs, trace (run self w).1 = trace w1 ++ evs ∧
         processed evs `prefix_of` set_iter dir_names ∧
         NoDup (processed evs).
Proof.
  intros Hbase Hcol.
  split; [apply set_iter_NoDup|]. split; [apply elem_of_set_iter|].
  split.
  { intros d X Hv Hd. unfold environment_step. rewrite Hv.
    destruct (_ && _); [set_solver|done]. }
  rewrite (run_after_base self w w1), Hcol by done.
  destruct (loop_processed (dry_run self) (set_iter dir_names) w1)
    as (evs & Ht & Hp).
  exists evs. split; [done|]. split; [done|].
  destruct Hp as [k Hk].
  pose proof (set_iter_NoDup dir_names) as Hnd.
  rewrite Hk in Hnd. apply NoDup_app in Hnd. tauto.
Qed.

End Removal.

Section Collecting.
Context {FS : Type} {fsys : FileSystem FS}.
Context {B : Type} {clean : BaseClean FS B} {order : SetOrder}.

Implicit Types (self : CleanCommand B) (w : World FS) (f : FS).
Implicit Types (X Y : gset string) (names : list string).
Implicit Types (cmds : list (string * string)).




Lemma add_dist_dirs_mono d cmds X Y :
  add_dist_dirs d cmds X = Ok Y → X ⊆ Y.
Proof.
  revert X. induction cmds as [|[name desc] cmds IH]; intros X; simpl.
  - intros [= <-]. done.
  - destruct (PyStr.contains "dist" name); [|apply IH].
    destruct (get_command_obj d name) as [c|e]; simpl; [|done].
    destruct (ensure_finalized c) as [[]|e]; simpl; [|done].
    destruct (getattr_default c "dist_dir") as [|s]; [apply IH|].
    destruct (PyStr.nonempty s); [|apply IH].
    intros HY. apply IH in HY. set_solver.
Qed.

Lemma nonempty_true s : PyStr.nonempty s = true ↔ s ≠ "".
Proof.
  unfold PyStr.nonempty. destruct (String.eqb_spec s ""); simpl; naive_solver.
Qed.

Lemma offers_dist_dir_attr d name p c :
  get_command_obj d name = Ok c → offers_dist_dir d name p →
  attrs c !! "dist_dir" = Some (VStr p) ∧ p ≠ "".
Proof.
  intros Hc (_ & c' & Hc' & Ha & Hne).
  rewrite Hc in Hc'. by injection Hc' as <-.
Qed.

(** The loop step for one registered command, as a set equation. *)
Lemma add_dist_dirs_tail d cmds X name desc (Z : gset string) :
  (∀ p, p ∈ Z ↔ p ∈ X ∨ offers_dist_dir d name p) →
  ∀ Y, (∀ p, p ∈ Y ↔ p ∈ Z ∨ ∃ n ds, (n, ds) ∈ cmds ∧ offers_dist_dir d n p) →
  ∀ p, p ∈ Y ↔
       p ∈ X ∨ ∃ n ds, (n, ds) ∈ (name, desc) :: cmds ∧ offers_dist_dir d n p.
Proof.
  intros HZ Y HY p. rewrite HY, HZ. split.
  - intros [[?|Hoff]|(n & ds & Hin & Hoff)]; [by left| |].
    + right. exists name, desc. split; [by left|done].
    + right. exists n, ds. split; [by right|done].
  - intros [?|(n & ds & Hin & Hoff)]; [by left; left|].
    apply elem_of_cons in Hin as [[= -> ->]|Hin]; [by left; right|].
    right. by exists n, ds.
Qed.

Lemma add_dist_dirs_spec d cmds X :
  (∀ name desc, (name, desc) ∈ cmds → PyStr.contains "dist" name = true →
     ∃ c, get_command_obj d name = Ok c ∧ ensure_finalized c = Ok tt) →
  ∃ Y, add_dist_dirs d cmds X = Ok Y ∧
       ∀ p, p ∈ Y ↔
            p ∈ X ∨ ∃ name desc, (name, desc) ∈ cmds ∧ offers_dist_dir d name p.
Proof.
  revert X. induction cmds as [|[name desc] cmds IH]; intros X Hok; simpl.
  - exists X. split; [done|]. intros p. split; [by left|].
    intros [?|(n & ds & Hin & _)]; [done|]. by apply elem_of_nil in Hin.
  - assert (∀ name desc, (name, desc) ∈ cmds →
              PyStr.contains "dist" name = true →
              ∃ c, get_command_obj d name = Ok c ∧ ensure_finalized c = Ok tt)
      as Hok'.
    { intros n ds Hin. apply (Hok n ds). by right. }
    (* every branch continues with the rest of the list from some [Z] *)
    assert (∀ Z : gset string,
              (∀ p, p ∈ Z ↔ p ∈ X ∨ offers_dist_dir d name p) →
              ∃ Y, add_dist_dirs d cmds Z = Ok Y ∧
                   ∀ p, p ∈ Y ↔ p ∈ X ∨ ∃ n ds, (n, ds) ∈ (name, desc) :: cmds ∧
                                               offers_dist_dir d n p) as Hstep.
    { intros Z HZ. destruct (IH Z Hok') as (Y & HY & Hmem).
      exists Y. split; [done|].
      by apply (add_dist_dirs_tail d cmds X name desc Z). }
    destruct (PyStr.contains "dist" name) eqn:Ec.
    + destruct (Hok name desc) as (c & Hc & Hf); [by left|done|].
      rewrite Hc. simpl. rewrite Hf. simpl.
      unfold getattr_default.
      destruct (attrs c !! "dist_dir") as [[|s]|] eqn:Ea; simpl.
      * apply Hstep. intros p. split; [by left|]. intros [?|Hoff]; [done|].
        destruct (offers_dist_dir_attr _ _ _ _ Hc Hoff). congruence.
      * destruct (PyStr.nonempty s) eqn:En.
        -- apply Hstep. intros p.
           rewrite elem_of_union, elem_of_singleton. split.
           ++ intros [->|?]; [|by left]. right. split; [done|].
              exists c. split; [done|]. split; [done|]. by apply nonempty_true.
           ++ intros [?|Hoff]; [by right|]. left.
              destruct (offers_dist_dir_attr _ _ _ _ Hc Hoff). congruence.
        -- apply Hstep. intros p. split; [by left|]. intros [?|Hoff]; [done|].
           destruct (offers_dist_dir_attr _ _ _ _ Hc Hoff) as [Ha Hne].
           apply nonempty_true in Hne. congruence.
      * apply Hstep. intros p. split; [by left|]. intros [?|Hoff]; [done|].
        destruct (offers_dist_dir_attr _ _ _ _ Hc Hoff). congruence.
    + apply Hstep. intros p. split; [by left|]. intros [?|Hoff]; [done|].
      destruct Hoff as [Hc' _]. congruence.
Qed.



Lemma dist_step_mono self X Y : dist_step self X = Ok Y → X ⊆ Y.
Proof.
  unfold dist_step. destruct (dist self); [apply add_dist_dirs_mono|].
  by intros [= <-].
Qed.


End Collecting.

Section Targets.
Context {FS : Type} {fsys : FileSystem FS}.
Context {B : Type} {clean : BaseClean FS B} {order : SetOrder}.

Implicit Types (self : CleanCommand B) (w : World FS) (f : FS).
Implicit Types (X Y : gset string) (names : list string).



(** C10.  With [eggs] set, once the inherited clean has returned, an
    [egg_base] that is absent or cannot be listed makes [run] raise with
    the world exactly as the base left it: nothing removed, nothing
    reported.  When the dist block came through, the exception is the
    [OSError] of [os.listdir(egg_base)]. *)
Theorem missing_egg_base_raises self w w1 eb :
  eggs self = true →
  egg_base self = Some eb →
  clean_run (base self) (dry_run self) w = (w1, Ok tt) →
  path_exists (fs w1) eb = false ∨
    (∃ msg, listdir (fs w1) eb = Raise (OSError msg)) →
  ∃ e, run self w = (w1, Raise e) ∧
       (is_Ok (dist_step self ∅) = true →
        ∃ msg, e = OSError msg ∧ listdir (fs w1) eb = Raise (OSError msg)).
Proof.
  intros He Heb Hbase Hmiss.
  assert (∃ msg, listdir (fs w1) eb = Raise (OSError msg)) as [msg Hl].
  { destruct Hmiss as [Hno|?]; [by apply listdir_missing|done]. }
  rewrite (run_after_base self w w1) by done.
  unfold collect_dir_names. unfold_monad.
  destruct (dist_step self ∅) as [D|e]; simpl.
  - unfold eggs_step. unfold_monad. rewrite He, Heb. simpl. rewrite Hl.
    exists (OSError msg). split; [done|]. intros _. by exists msg.
  - exists e. split; [done|]. discriminate.
Qed.

End Targets.

Section Finalizing.
Context {FS : Type} {fsys : FileSystem FS}.
Context {B : Type} {clean : BaseClean FS B} {order : SetOrder}.

Implicit Types (self : CleanCommand B) (environ : gmap string string).

(** The sibling lookup either leaves the command alone or, when it
    succeeds on a command whose [egg_base] is [None], sets that option. *)
Lemma set_undefined_options_cases src self :
  set_undefined_options src self = (self, (set_undefined_options src self).2) ∨
  (egg_base self = None ∧
   ∃ v, set_undefined_options src self = (set_egg_base v self, Ok tt)).
Proof.
  unfold set_undefined_options. unfold_monad.
  destruct (get_command_obj (distribution self) src) as [c|e]; [|by left].
  destruct (ensure_finalized c) as [[]|e]; [|by left].
  destruct (egg_base self) as [eb|] eqn:E; [by left|].
  destruct (getattr c "egg_base") as [v|e]; [|by left].
  right. split; [done|]. by exists (to_option v).
Qed.

Lemma set_undefined_options_raises src self s2 e :
  set_undefined_options src self = (s2, Raise e) → s2 = self.
Proof.
  intros Hs. destruct (set_undefined_options_cases src self) as [Hc|(_ & v & Hc)].
  - rewrite Hs in Hc. by injection Hc.
  - rewrite Hs in Hc. by injection Hc.
Qed.

Lemma set_undefined_options_keeps src self eb :
  egg_base self = Some eb →
  (set_undefined_options src self).1 = self.
Proof.
  intros Heb. destruct (set_undefined_options_cases src self) as [Hc|(Hn & _)].
  - by rewrite Hc.
  - congruence.
Qed.


(** [finalize_options], branch by branch. *)
Lemma finalize_options_unfold environ self :
  finalize_options environ self =
  match clean_finalize_options (base self) with
  | (b, Ok _) =>
      match set_undefined_options "egg_info" (set_base b self) with
      | (s2, r) => if swallowed r then (apply_defaults environ s2, Ok tt)
                   else (s2, r)
      end
  | (b, Raise e) => (set_base b self, Raise e)
  end.
Proof.
  unfold finalize_options, base_finalize_options, apply_defaults.
  unfold_monad.
  destruct (clean_finalize_options (base self)) as [b [[]|e]]; [|done].
  destruct (set_undefined_options "egg_info" (set_base b self))
    as [s2 [[]|e]]; simpl.
  - destruct (egg_base s2); simpl; by destruct (_ && _).
  - destruct (is_DistutilsError e); [|done].
    destruct (egg_base s2); simpl; by destruct (_ && _).
Qed.

Lemma egg_base_apply_defaults environ self :
  egg_base (apply_defaults environ self) =
  Some (default os.curdir (egg_base self)).
Proof.
  unfold apply_defaults.
  destruct (egg_base self) as [eb|] eqn:E; simpl.
  - destruct (_ && _); simpl; by rewrite E.
  - by destruct (_ && _).
Qed.

(** C7, as amended.  Once the inherited finalization has returned: when
    the sibling lookup succeeds or raises a [DistutilsError] (what the
    registry raises for an undefined command), [finalize_options] returns
    normally and [egg_base] is what the attempt left, or ['.'] if that is
    still [None]; a failed attempt leaves the command as it was.  Any
    other exception from the lookup is not caught and comes out of
    [finalize_options]. *)
Theorem sibling_failure_swallowed environ self b s2 r :
  clean_finalize_options (base self) = (b, Ok tt) →
  set_undefined_options "egg_info" (set_base b self) = (s2, r) →
  (swallowed r = true →
     (finalize_options environ self).2 = Ok tt ∧
     egg_base (finalize_options environ self).1 =
       Some (default os.curdir (egg_base s2))) ∧
  (swallowed r = false → finalize_options environ self = (s2, r)) ∧
  (is_Ok r = false → s2 = set_base b self ∧ egg_base s2 = egg_base self).
Proof.
  intros Hb Hs. rewrite finalize_options_unfold, Hb, Hs.
  split; [|split].
  - intros ->. simpl. split; [done|]. apply egg_base_apply_defaults.
  - by intros ->.
  - destruct r as [[]|e]; [done|]. intros _.
    apply set_undefined_options_raises in Hs. by subst.
Qed.

(** C9.  An [egg_base] that is already set comes out of
    [finalize_options] unchanged, whatever the inherited finalization and
    the sibling [egg_info] command do, and whether or not an exception is
    raised. *)
Theorem explicit_egg_base_kept environ self eb :
  egg_base self = Some eb →
  egg_base (finalize_options environ self).1 = Some eb.
Proof.
  intros Heb. rewrite finalize_options_unfold.
  destruct (clean_finalize_options (base self)) as [b [[]|e]]; [|done].
  pose proof (set_undefined_options_keeps "egg_info" (set_base b self) eb Heb)
    as Hk.
  destruct (set_undefined_options "egg_info" (set_base b self)) as [s2 r].
  simpl in Hk. subst s2.
  destruct (swallowed r); [|done]. simpl.
  rewrite egg_base_apply_defaults. simpl. by rewrite Heb.
Qed.


End Finalizing.

(** ** The theorems at work on the example project *)

Section Worked.
Import TreeFS.

Local Ltac member_cases H :=
  repeat (apply elem_of_union in H as [H|H]);
  apply elem_of_singleton in H; subst.

(** The spec's own examples, computed. *)
Example eggs_example :
  collect_dir_names (Ex.cmd false false true (Some "pkg") false None) Ex.tree
  = Ok {[ "pkg/foo.egg-info"; "baz.egg" ]}.
Proof. vm_compute. reflexivity. Qed.

Example dist_example :
  collect_dir_names (Ex.cmd false true false None false None) Ex.tree
  = Ok {[ "dist"; "build/out" ]}.
Proof. vm_compute. reflexivity. Qed.

Example all_flags_example :
  collect_dir_names (Ex.all_flags true) Ex.tree = Ok Ex.all_targets.
Proof. vm_compute. reflexivity. Qed.

Lemma run_without_flags_witness :
  (∀ f : node,
     collect_dir_names (Ex.cmd false false false None false None) f = Ok ∅) ∧
  run (order := elements_order) (Ex.cmd false false false None false None)
      Ex.world
  = clean_run tt false Ex.world.
Proof.
  apply (run_without_flags (order := elements_order)
           (Ex.cmd false false false None false None) Ex.world);
    reflexivity.
Defined.

Lemma dry_run_keeps_filesystem_witness :
  run (order := elements_order) (Ex.all_flags true) Ex.world =
    (mkWorld Ex.tree
       ([] ++ List.map Removing (set_iter (SetOrder := elements_order)
                                          Ex.all_targets)),
     Ok tt) ∧
  (∀ w1' : World node,
     clean_run tt false Ex.world = (w1', Ok tt) →
     collect_dir_names (Ex.all_flags true) (fs w1') = Ok Ex.all_targets →
     (∀ d, d ∈ Ex.all_targets → path_exists (fs w1') d = true) →
     removals_independent (set_iter (SetOrder := elements_order) Ex.all_targets)
                          (fs w1') = true →
     (run (order := elements_order) (set_dry_run false (Ex.all_flags true))
          Ex.world).2 = Ok tt ∧
     trace (run (order := elements_order)
                (set_dry_run false (Ex.all_flags true)) Ex.world).1 =
       trace w1' ++ List.map Removing (set_iter (SetOrder := elements_order)
                                                Ex.all_targets)).
Proof.
  apply (dry_run_keeps_filesystem (order := elements_order)
           (Ex.all_flags true) Ex.world Ex.world Ex.all_targets).
  - reflexivity.
  - reflexivity.
  - vm_compute. reflexivity.
  - intros d Hd. unfold Ex.all_targets in Hd. member_cases Hd; reflexivity.
Defined.

(** On the example project the proviso holds, and the two runs report the
    same. *)
Example dry_and_wet_reports_agree :
  removals_independent (set_iter (SetOrder := elements_order) Ex.all_targets)
                       Ex.tree = true ∧
  List.map message
    (trace (run (order := elements_order) (Ex.all_flags true) Ex.world).1) =
  List.map message
    (trace (run (order := elements_order) (Ex.all_flags false) Ex.world).1).
Proof. split; vm_compute; reflexivity. Qed.

(** The counterexample to C2 as stated: with [--dist --eggs
    --egg-base=dist] every collected directory exists, yet when the set
    yields [dist] before [dist/foo.egg-info] the non-dry run reports a
    skip where the dry run reports a removal. *)
Lemma dry_run_messages_differ :
  collect_dir_names (Ex.nested true) Ex.tree = Ok Ex.nested_targets ∧
  collect_dir_names (Ex.nested false) Ex.tree = Ok Ex.nested_targets ∧
  forallb (path_exists Ex.tree) (elements Ex.nested_targets) = true ∧
  List.map message
    (trace (run (order := reverse_order) (Ex.nested true) Ex.world).1) =
    ["removing 'dist' (and everything under it)";
     "removing 'dist/foo.egg-info' (and everything under it)";
     "removing 'baz.egg' (and everything under it)";
     "removing 'build/out' (and everything under it)"] ∧
  List.map message
    (trace (run (order := reverse_order) (Ex.nested false) Ex.world).1) =
    ["removing 'dist' (and everything under it)";
     "skipping dist/foo.egg-info since it does not exist";
     "removing 'baz.egg' (and everything under it)";
     "removing 'build/out' (and everything under it)"] ∧
  List.map message
    (trace (run (order := reverse_order) (Ex.nested true) Ex.world).1) ≠
  List.map message
    (trace (run (order := reverse_order) (Ex.nested false) Ex.world).1).
Proof.
  repeat split; try (vm_compute; reflexivity).
  vm_compute. discriminate.
Qed.

(** [--dist --environment --virtualenv-dir=nowhere]: the enumeration is
    [nowhere], [build/out], [dist].  The theorem at [nowhere] (absent, first)
    and at [build/out] (present, reached after the skip). *)
Lemma missing_target_skipped_others_removed_witness :
  run (order := elements_order)
      (Ex.cmd false true false None true (Some "nowhere")) Ex.world =
    for_each (clean_dir false) ["build/out"; "dist"]
             (emit (Skipping "nowhere") Ex.world) ∧
  for_each (clean_dir false) ([] ++ ["nowhere"]) Ex.world =
    (emit (Skipping "nowhere") Ex.world, Ok tt) ∧
  run (order := elements_order)
      (Ex.cmd false true false None true (Some "nowhere")) Ex.world =
    match rmtree "build/out" (fs (emit (Skipping "nowhere") Ex.world)) with
    | (f', Ok _) =>
        for_each (clean_dir false) ["dist"]
          (mkWorld f' (trace (emit (Skipping "nowhere") Ex.world)
                       ++ [Removing "build/out"]))
    | (f', Raise e) =>
        (mkWorld f' (trace (emit (Skipping "nowhere") Ex.world)
                     ++ [Removing "build/out"]), Raise e)
    end.
Proof.
  destruct (missing_target_skipped_others_removed (order := elements_order)
              (Ex.cmd false true false None true (Some "nowhere"))
              Ex.world Ex.world {[ "dist"; "build/out"; "nowhere" ]}
              [] "nowhere" ["build/out"; "dist"] Ex.world)
    as (Hskip & Hon & _ & _).
  { reflexivity. }
  { vm_compute. reflexivity. }
  { vm_compute. reflexivity. }
  { reflexivity. }
  destruct (missing_target_skipped_others_removed (order := elements_order)
              (Ex.cmd false true false None true (Some "nowhere"))
              Ex.world Ex.world {[ "dist"; "build/out"; "nowhere" ]}
              ["nowhere"] "build/out" ["dist"]
              (emit (Skipping "nowhere") Ex.world))
    as (_ & _ & Hrm & _).
  { reflexivity. }
  { vm_compute. reflexivity. }
  { vm_compute. reflexivity. }
  { reflexivity. }
  split; [apply Hskip; reflexivity|].
  split; [apply Hon; reflexivity|].
  apply Hrm; reflexivity.
Defined.

(** The whole run: the absent directory is skipped, the two present ones
    are removed. *)
Example skip_example :
  run (order := elements_order)
      (Ex.cmd false true false None true (Some "nowhere")) Ex.world =
  (mkWorld (Dir [("build", Dir []); ("baz.egg", Dir []);
                 ("pkg", Dir [("foo.egg-info", Dir []); ("bar.txt", File)]);
                 ("setup.py", File);
                 ("tmp", Dir [("venv", Dir [("bin", Dir [])])])])
           [Skipping "nowhere"; Removing "build/out"; Removing "dist"],
   Ok tt).
Proof. vm_compute. reflexivity. Qed.

(** The counterexample to C6 as stated: [--dist --eggs --environment
    --virtualenv-dir=nowhere] on a project whose egg is a zip file.  The
    absent [nowhere] is skipped and [build/out] removed, then
    [remove_tree] raises on the egg, and [dist], which is in the set and
    exists, is left where it was. *)
Lemma raising_removal_leaves_existing_target :
  collect_dir_names (Ex.cmd false true true (Some ".") true (Some "nowhere"))
                    Ex2.tree_zipped
    = Ok {[ "nowhere"; "build/out"; "baz.egg"; "dist" ]} ∧
  path_exists Ex2.tree_zipped "nowhere" = false ∧
  path_exists Ex2.tree_zipped "dist" = true ∧
  run (order := elements_order)
      (Ex.cmd false true true (Some ".") true (Some "nowhere"))
      (mkWorld Ex2.tree_zipped []) =
    (mkWorld (Dir [("dist", Dir []); ("baz.egg", File); ("build", Dir [])])
             [Skipping "nowhere"; Removing "build/out"; Removing "baz.egg"],
     Raise (OSError "cannot remove")) ∧
  path_exists
    (fs (run (order := elements_order)
             (Ex.cmd false true true (Some ".") true (Some "nowhere"))
             (mkWorld Ex2.tree_zipped [])).1) "dist" = true.
Proof. repeat split; vm_compute; reflexivity. Qed.

(** [sdist] and [--virtualenv-dir=dist] both name [dist]. *)
Lemma targets_handled_once_witness :
  NoDup (set_iter (SetOrder := elements_order) {[ "dist"; "build/out" ]}) ∧
  (∀ d, d ∈ set_iter (SetOrder := elements_order) {[ "dist"; "build/out" ]}
        ↔ d ∈ ({[ "dist"; "build/out" ]} : gset string)) ∧
  (∀ (d : string) (X : gset string),
     virtualenv_dir (Ex.cmd false true false None true (Some "dist")) = Some d →
     d ∈ X →
     environment_step (Ex.cmd false true false None true (Some "dist")) X = X) ∧
  ∃ evs,
    trace (run (order := elements_order)
             (Ex.cmd false true false None true (Some "dist")) Ex.world).1 =
      [] ++ evs ∧
    processed evs `prefix_of`
      set_iter (SetOrder := elements_order) {[ "dist"; "build/out" ]} ∧
    NoDup (processed evs).
Proof.
  apply (targets_handled_once (order := elements_order)
           (Ex.cmd false true false None true (Some "dist"))
           Ex.world Ex.world {[ "dist"; "build/out" ]}).
  - reflexivity.
  - vm_compute. reflexivity.
Defined.



Lemma missing_egg_base_raises_witness :
  ∃ e, run (order := elements_order)
           (Ex.cmd false true true (Some "missing") false None) Ex.world
       = (Ex.world, Raise e) ∧
       (is_Ok (dist_step (Ex.cmd false true true (Some "missing") false None) ∅)
        = true →
        ∃ msg, e = OSError msg ∧
               listdir Ex.tree "missing" = Raise (OSError msg)).
Proof.
  apply (missing_egg_base_raises (order := elements_order)
           (Ex.cmd false true true (Some "missing") false None)
           Ex.world Ex.world "missing").
  - reflexivity.
  - reflexivity.
  - reflexivity.
  - left. reflexivity.
Defined.

(** Plain distutils, [--environment], [VIRTUAL_ENV=/tmp/venv]. *)
Example environment_example :
  virtualenv_dir
    (finalize_options Ex.venv (Ex.cmd false false false None true None)).1
  = Some "/tmp/venv" ∧
  collect_dir_names
    (finalize_options Ex.venv (Ex.cmd false false false None true None)).1
    Ex.tree
  = Ok {[ "/tmp/venv" ]} ∧
  collect_dir_names
    (finalize_options ∅ (Ex.cmd false false false None true None)).1 Ex.tree
  = Ok ∅.
Proof. repeat split; vm_compute; reflexivity. Qed.

(** With no [--egg-base] the sibling's value is adopted. *)
Example adopted_egg_base_example :
  egg_base
    (finalize_options ∅
       (Ex.cmd_in Ex.registry_src false false true None false None)).1
  = Some "src".
Proof. reflexivity. Qed.


Lemma sibling_failure_swallowed_witness :
  (swallowed (Raise (DistutilsError "invalid command 'egg_info'")) = true →
     (finalize_options Ex.venv (Ex.cmd false false true None false None)).2
       = Ok tt ∧
     egg_base
       (finalize_options Ex.venv (Ex.cmd false false true None false None)).1
       = Some (default os.curdir
                 (egg_base (Ex.cmd false false true None false None)))) ∧
  (swallowed (Raise (DistutilsError "invalid command 'egg_info'")) = false →
     finalize_options Ex.venv (Ex.cmd false false true None false None)
     = (Ex.cmd false false true None false None,
        Raise (DistutilsError "invalid command 'egg_info'"))) ∧
  (is_Ok (Raise (DistutilsError "invalid command 'egg_info'") : Result unit)
     = false →
     Ex.cmd false false true None false None
       = set_base tt (Ex.cmd false false true None false None) ∧
     egg_base (Ex.cmd false false true None false None)
       = egg_base (Ex.cmd false false true None false None)).
Proof.
  apply (sibling_failure_swallowed Ex.venv
           (Ex.cmd false false true None false None) tt
           (Ex.cmd false false true None false None)
           (Raise (DistutilsError "invalid command 'egg_info'")));
    reflexivity.
Defined.

(** The counterexample to C7 as stated: an [egg_info] command without an
    [egg_base] attribute makes the lookup raise [AttributeError], which
    the [except] clause does not catch. *)
Lemma sibling_error_escapes :
  set_undefined_options "egg_info"
    (Ex.cmd_in Ex.registry_bare false false true None false None)
  = (Ex.cmd_in Ex.registry_bare false false true None false None,
     Raise (AttributeError "egg_base")) ∧
  finalize_options Ex.venv
    (Ex.cmd_in Ex.registry_bare false false true None false None)
  = (Ex.cmd_in Ex.registry_bare false false true None false None,
     Raise (AttributeError "egg_base")) ∧
  egg_base
    (finalize_options Ex.venv
       (Ex.cmd_in Ex.registry_bare false false true None false None)).1
  = None.
Proof. repeat split; reflexivity. Qed.

Lemma explicit_egg_base_kept_witness :
  egg_base
    (finalize_options Ex.venv
       (Ex.cmd_in Ex.registry_src false false true (Some "pkg") false None)).1
  = Some "pkg".
Proof.
  apply (explicit_egg_base_kept Ex.venv
           (Ex.cmd_in Ex.registry_src false false true (Some "pkg") false None)
           "pkg").
  reflexivity.
Defined.

End Worked.

(** ** Further properties of [finalize_options] and the life cycle *)

Section Lifecycle.
Context {FS : Type} {fsys : FileSystem FS}.
Context {B : Type} {clean : BaseClean FS B} {order : SetOrder}.

Implicit Types (self : CleanCommand B) (environ : gmap string string).

Lemma same_options_refl self : same_options self self.
Proof. by repeat split. Qed.

Lemma same_options_set_base b self : same_options (set_base b self) self.
Proof. by repeat split. Qed.

Lemma same_options_trans (a b c : CleanCommand B) :
  same_options a b → same_options b c → same_options a c.
Proof.
  unfold same_options. intros (?&?&?&?&?&?&?) (?&?&?&?&?&?&?).
  repeat split; congruence.
Qed.

(** The sibling lookup touches nothing but [egg_base]. *)
Lemma set_undefined_options_flags src self :
  let s := (set_undefined_options src self).1 in
  base s = base self ∧ distribution s = distribution self ∧
  dry_run s = dry_run self ∧ dist s = dist self ∧ eggs s = eggs self ∧
  environment s = environment self ∧ virtualenv_dir s = virtualenv_dir self.
Proof.
  destruct (set_undefined_options_cases src self) as [Hc|(_ & v & Hc)];
    by rewrite Hc.
Qed.

Lemma apply_defaults_flags environ self :
  let s := apply_defaults environ self in
  base s = base self ∧ distribution s = distribution self ∧
  dry_run s = dry_run self ∧ dist s = dist self ∧ eggs s = eggs self ∧
  environment s = environment self.
Proof.
  unfold apply_defaults. destruct (egg_base self); simpl;
    by destruct (_ && _).
Qed.

Lemma virtualenv_dir_apply_defaults environ self :
  virtualenv_dir (apply_defaults environ self) =
  if environment self && bool_decide (virtualenv_dir self = None)
  then environ !! "VIRTUAL_ENV" else virtualenv_dir self.
Proof.
  unfold apply_defaults. destruct (egg_base self); simpl;
    by destruct (_ && _).
Qed.

Lemma finalize_options_flags environ self :
  distribution (finalize_options environ self).1 = distribution self ∧
  dry_run (finalize_options environ self).1 = dry_run self ∧
  dist (finalize_options environ self).1 = dist self ∧
  eggs (finalize_options environ self).1 = eggs self ∧
  environment (finalize_options environ self).1 = environment self.
Proof.
  rewrite finalize_options_unfold.
  destruct (clean_finalize_options (base self)) as [b [[]|e]]; [|done].
  pose proof (set_undefined_options_flags "egg_info" (set_base b self)) as Hs.
  destruct (set_undefined_options "egg_info" (set_base b self)) as [s2 r].
  simpl in Hs. destruct Hs as (_ & Hd & Hdry & Hdist & Heggs & Henv & _).
  destruct (swallowed r); simpl; [|done].
  destruct (apply_defaults_flags environ s2) as (_ & ? & ? & ? & ? & ?).
  repeat split; congruence.
Qed.

(** X2.  [finalize_options] never changes the flags [dist], [eggs] and
    [environment], the dry-run switch or the distribution, whether it
    returns or raises. *)
Theorem finalize_options_keeps_flags environ self :
  distribution (finalize_options environ self).1 = distribution self ∧
  dry_run (finalize_options environ self).1 = dry_run self ∧
  dist (finalize_options environ self).1 = dist self ∧
  eggs (finalize_options environ self).1 = eggs self ∧
  environment (finalize_options environ self).1 = environment self.
Proof. apply finalize_options_flags. Qed.

Lemma run_no_flags self (w : World FS) :
  dist self = false → eggs self = false → environment self = false →
  run self w = clean_run (base self) (dry_run self) w.
Proof.
  intros Hd He Hv. unfold run. unfold_monad.
  destruct (clean_run (base self) (dry_run self) w) as [w1 [[]|e]]; [|done].
  rewrite collect_no_flags by done. by rewrite set_iter_empty.
Qed.

(** X1.  A command taken through [initialize_options] and
    [finalize_options] with no option set removes nothing: whatever the
    environment and the registry, and whether or not finalization raised,
    its flags are off and its [run] is the inherited clean's [run]. *)
Theorem default_configuration_removes_nothing environ self (w : World FS) :
  dist (finalize_options environ (initialize_options self)).1 = false ∧
  eggs (finalize_options environ (initialize_options self)).1 = false ∧
  environment (finalize_options environ (initialize_options self)).1 = false ∧
  run (finalize_options environ (initialize_options self)).1 w =
  clean_run (base (finalize_options environ (initialize_options self)).1)
            (dry_run self) w.
Proof.
  destruct (finalize_options_flags environ (initialize_options self))
    as (_ & Hdry & Hd & He & Hv).
  simpl in Hdry, Hd, He, Hv.
  split; [done|]. split; [done|]. split; [done|].
  rewrite run_no_flags by done. by rewrite Hdry.
Qed.

(** X3.  A [virtualenv_dir] that is already set comes out of
    [finalize_options] unchanged, whatever [VIRTUAL_ENV] holds. *)
Theorem explicit_virtualenv_dir_kept environ self v :
  virtualenv_dir self = Some v →
  virtualenv_dir (finalize_options environ self).1 = Some v.
Proof.
  intros Hv. rewrite finalize_options_unfold.
  destruct (clean_finalize_options (base self)) as [b [[]|e]]; [|done].
  pose proof (set_undefined_options_flags "egg_info" (set_base b self)) as Hs.
  destruct (set_undefined_options "egg_info" (set_base b self)) as [s2 r].
  simpl in Hs. destruct Hs as (_ & _ & _ & _ & _ & _ & Hv2).
  destruct (swallowed r); simpl; [|congruence].
  rewrite virtualenv_dir_apply_defaults, Hv2, Hv.
  rewrite bool_decide_eq_false_2 by done. by rewrite andb_false_r.
Qed.

(** X4.  Without [environment] the variable [VIRTUAL_ENV] plays no part:
    finalization is the same under any two environments, [virtualenv_dir]
    stays what it was, and the environment block of [run] adds nothing,
    even for a [virtualenv_dir] given explicitly. *)
Theorem environment_off_ignores_virtual_env environ environ' self :
  environment self = false →
  finalize_options environ self = finalize_options environ' self ∧
  virtualenv_dir (finalize_options environ self).1 = virtualenv_dir self ∧
  (∀ X : gset string,
     environment_step (finalize_options environ self).1 X = X).
Proof.
  intros He.
  assert (∀ env (s : CleanCommand B), environment s = false →
            apply_defaults env s = apply_defaults environ s) as Hsame.
  { intros env s Hs. unfold apply_defaults.
    destruct (egg_base s); simpl; by rewrite Hs. }
  destruct (finalize_options_flags environ self) as (_&_&_&_&He').
  split; [|split].
  - rewrite !finalize_options_unfold.
    destruct (clean_finalize_options (base self)) as [b [[]|e]]; [|done].
    pose proof (set_undefined_options_flags "egg_info" (set_base b self)) as Hs.
    destruct (set_undefined_options "egg_info" (set_base b self)) as [s2 r].
    simpl in Hs. destruct Hs as (_ & _ & _ & _ & _ & He2 & _).
    destruct (swallowed r); [|done].
    rewrite (Hsame environ' s2); [done|]. by rewrite He2.
  - rewrite finalize_options_unfold.
    destruct (clean_finalize_options (base self)) as [b [[]|e]]; [|done].
    pose proof (set_undefined_options_flags "egg_info" (set_base b self)) as Hs.
    destruct (set_undefined_options "egg_info" (set_base b self)) as [s2 r].
    simpl in Hs. destruct Hs as (_ & _ & _ & _ & _ & He2 & Hv2).
    destruct (swallowed r); simpl; [|done].
    rewrite virtualenv_dir_apply_defaults, He2. simpl in *. by rewrite He.
  - intros X. unfold environment_step. by rewrite He', He.
Qed.

(** X5.  With no [egg_base] given, an [egg_info] command that can be
    obtained and finalized hands over its own [egg_base]; if that is [None]
    the current directory is taken. *)
Theorem sibling_egg_base_adopted environ self b c v :
  egg_base self = None →
  clean_finalize_options (base self) = (b, Ok tt) →
  get_command_obj (distribution self) "egg_info" = Ok c →
  ensure_finalized c = Ok tt →
  attrs c !! "egg_base" = Some v →
  (finalize_options environ self).2 = Ok tt ∧
  egg_base (finalize_options environ self).1 =
    Some (default os.curdir (to_option v)).
Proof.
  intros Heb Hb Hc Hf Ha.
  assert (set_undefined_options "egg_info" (set_base b self) =
          (set_egg_base (to_option v) (set_base b self), Ok tt)) as Hs.
  { unfold set_undefined_options. unfold_monad. simpl.
    rewrite Hc, Hf, Heb. unfold getattr. by rewrite Ha. }
  rewrite finalize_options_unfold, Hb, Hs. simpl.
  split; [done|]. by rewrite egg_base_apply_defaults.
Qed.

(** X7.  When [finalize_options] raises, no option of this command has
    been touched: only the inherited options may differ. *)
Theorem failed_finalize_keeps_options environ self e :
  (finalize_options environ self).2 = Raise e →
  same_options (finalize_options environ self).1 self.
Proof.
  rewrite finalize_options_unfold.
  destruct (clean_finalize_options (base self)) as [b [[]|e']];
    [|intros _; apply same_options_set_base].
  destruct (set_undefined_options "egg_info" (set_base b self))
    as [s2 r] eqn:Hs.
  destruct (swallowed r) eqn:Hsw; simpl; [done|].
  destruct r as [[]|e']; [done|]. intros _.
  apply set_undefined_options_raises in Hs. subst s2.
  apply same_options_set_base.
Qed.

(** Finalizing a command whose [egg_base] is set, and whose
    [virtualenv_dir] is missing only if [VIRTUAL_ENV] is, changes none of
    its options. *)
Lemma finalize_options_settled environ self eb :
  egg_base self = Some eb →
  (environment self = true → virtualenv_dir self = None →
   environ !! "VIRTUAL_ENV" = None) →
  same_options (finalize_options environ self).1 self.
Proof.
  intros Heb Hv. rewrite finalize_options_unfold.
  destruct (clean_finalize_options (base self)) as [b [[]|e]];
    [|apply same_options_set_base].
  pose proof (set_undefined_options_keeps "egg_info" (set_base b self) eb Heb)
    as Hk.
  destruct (set_undefined_options "egg_info" (set_base b self)) as [s2 r].
  simpl in Hk. subst s2.
  destruct (swallowed r); simpl; [|apply same_options_set_base].
  unfold apply_defaults. simpl. rewrite Heb. simpl.
  destruct (environment self) eqn:He; simpl; [|by repeat split].
  destruct (virtualenv_dir self) as [v|] eqn:Hvd; simpl; [by repeat split|].
  rewrite Hv by done. repeat split; done.
Qed.

(** X6.  Once [finalize_options] has returned normally, running it again
    under the same environment changes none of this command's options,
    whatever the second call does. *)
Theorem finalize_options_idempotent environ self :
  (finalize_options environ self).2 = Ok tt →
  same_options (finalize_options environ (finalize_options environ self).1).1
               (finalize_options environ self).1.
Proof.
  intros Hok.
  assert (∃ s2, (finalize_options environ self).1 = apply_defaults environ s2)
    as [s2 Hs1].
  { revert Hok. rewrite finalize_options_unfold.
    destruct (clean_finalize_options (base self)) as [b [[]|e]]; [|done].
    destruct (set_undefined_options "egg_info" (set_base b self)) as [s2 r].
    destruct (swallowed r) eqn:Hsw; simpl.
    - intros _. by exists s2.
    - intros ->. done. }
  rewrite Hs1.
  apply (finalize_options_settled environ _ (default os.curdir (egg_base s2))).
  - apply egg_base_apply_defaults.
  - destruct (apply_defaults_flags environ s2) as (_&_&_&_&_&He).
    rewrite He, virtualenv_dir_apply_defaults. intros Henv. rewrite Henv.
    simpl. case_bool_decide as Hv; [done|]. intros E. congruence.
Qed.

End Lifecycle.

(** ** Further properties of [run] *)

Section Running.
Context {FS : Type} {fsys : FileSystem FS}.
Context {B : Type} {clean : BaseClean FS B} {order : SetOrder}.

Implicit Types (self : CleanCommand B) (w : World FS) (l : list string).
Implicit Types (cmds : list (string * string)) (X Y : gset string).

Lemma loop_all_absent dry l w :
  Forall (fun d => path_exists (fs w) d = false) l →
  for_each (clean_dir dry) l w =
  (mkWorld (fs w) (trace w ++ List.map Skipping l), Ok tt).
Proof.
  revert w. induction l as [|d l IH]; intros w Hall.
  - simpl. rewrite app_nil_r. by destruct w.
  - inversion Hall as [|? ? Hd Hl]; subst.
    rewrite for_each_cons, clean_dir_missing by done.
    rewrite IH by done. simpl. by rewrite <- app_assoc.
Qed.

(** X8.  When none of the collected directories exists, [run] (dry or not)
    changes nothing on the filesystem, raises nothing and reports one skip
    per directory, in the order of enumeration. *)
Theorem all_absent_all_skipped self w w1 dir_names :
  clean_run (base self) (dry_run self) w = (w1, Ok tt) →
  collect_dir_names self (fs w1) = Ok dir_names →
  (∀ d, d ∈ dir_names → path_exists (fs w1) d = false) →
  run self w =
  (mkWorld (fs w1) (trace w1 ++ List.map Skipping (set_iter dir_names)), Ok tt).
Proof.
  intros Hbase Hcol Habs.
  rewrite (run_after_base self w w1), Hcol by done.
  apply loop_all_absent, Forall_forall. intros d Hd.
  apply Habs. by apply elem_of_set_iter.
Qed.

Lemma loop_dry_report l w :
  for_each (clean_dir true) l w =
  (mkWorld (fs w) (trace w ++ List.map (report (fs w)) l), Ok tt).
Proof.
  revert w. induction l as [|d l IH]; intros w.
  - simpl. rewrite app_nil_r. by destruct w.
  - rewrite for_each_cons. simpl.
    destruct (path_exists (fs w) d) eqn:E.
    + rewrite clean_dir_dry by done. rewrite IH. simpl.
      unfold report. rewrite E. by rewrite <- app_assoc.
    + rewrite clean_dir_missing by done. rewrite IH. simpl.
      unfold report. rewrite E. by rewrite <- app_assoc.
Qed.

(** X9.  In dry-run, whatever exists, the removal loop never raises and
    never changes the filesystem: each collected directory is reported as
    removed if it is present after the inherited clean and as skipped if
    not. *)
Theorem dry_run_reports self w w1 dir_names :
  dry_run self = true →
  clean_run (base self) true w = (w1, Ok tt) →
  collect_dir_names self (fs w1) = Ok dir_names →
  run self w =
  (mkWorld (fs w1)
           (trace w1 ++ List.map (report (fs w1)) (set_iter dir_names)),
   Ok tt).
Proof.
  intros Hdry Hbase Hcol.
  rewrite (run_after_base self w w1) by by rewrite Hdry.
  rewrite Hcol, Hdry. apply loop_dry_report.
Qed.

(** X10.  A removal that raises ends the loop there: the exception comes
    out, the directories after it are neither removed nor reported, and
    what was removed before stays removed. *)
Theorem failed_removal_aborts l1 d l2 w w1 f' e :
  for_each (clean_dir false) l1 w = (w1, Ok tt) →
  path_exists (fs w1) d = true →
  rmtree d (fs w1) = (f', Raise e) →
  for_each (clean_dir false) (l1 ++ d :: l2) w =
  (mkWorld f' (trace w1 ++ [Removing d]), Raise e).
Proof.
  intros Hl1 Hd Hrm.
  rewrite for_each_app, Hl1, for_each_cons, clean_dir_wet by done.
  by rewrite Hrm.
Qed.

Lemma loop_ok_processed dry l w w' :
  for_each (clean_dir dry) l w = (w', Ok tt) →
  ∃ evs, trace w' = trace w ++ evs ∧ processed evs = l.
Proof.
  revert w. induction l as [|d l IH]; intros w.
  - simpl. intros [= <-]. exists []. by rewrite app_nil_r.
  - rewrite for_each_cons.
    destruct (clean_dir_step dry d w) as (ev & Et & Es).
    destruct (clean_dir dry d w) as [w1 [[]|e]]; [|done]. simpl in Et.
    intros Hrest. destruct (IH w1 Hrest) as (evs & Et' & Hp).
    exists (ev :: evs). split.
    + rewrite Et', Et, <- app_assoc. done.
    + rewrite <- Hp. unfold processed. simpl. by rewrite Es.
Qed.

(** X11.  When [run] returns normally it has dealt with every collected
    directory: the directories its events are about are the whole
    enumeration of the set, each one once. *)
Theorem success_reports_every_target self w w1 w2 dir_names :
  clean_run (base self) (dry_run self) w = (w1, Ok tt) →
  collect_dir_names self (fs w1) = Ok dir_names →
  run self w = (w2, Ok tt) →
  ∃ evs, trace w2 = trace w1 ++ evs ∧
         processed evs = set_iter dir_names ∧
         (∀ d, d ∈ dir_names ↔ d ∈ processed evs).
Proof.
  intros Hbase Hcol. rewrite (run_after_base self w w1), Hcol by done.
  intros Hloop. destruct (loop_ok_processed _ _ _ _ Hloop) as (evs & Ht & Hp).
  exists evs. split; [done|]. split; [done|].
  intros d. rewrite Hp. symmetry. apply elem_of_set_iter.
Qed.

Lemma loop_wet_removed l w :
  ∃ evs, trace (for_each (clean_dir false) l w).1 = trace w ++ evs ∧
         fs (for_each (clean_dir false) l w).1 =
           foldl (fun f d => (rmtree d f).1) (fs w) (removed evs) ∧
         (∀ d, d ∈ removed evs → d ∈ l).
Proof.
  revert w. induction l as [|d l IH]; intros w.
  - exists []. simpl. rewrite app_nil_r. split; [done|]. split; [done|].
    intros d Hd. by apply elem_of_nil in Hd.
  - rewrite for_each_cons. destruct (path_exists (fs w) d) eqn:E.
    + rewrite clean_dir_wet by done.
      destruct (rmtree d (fs w)) as [f1 [[]|e]] eqn:Hrm; simpl.
      * destruct (IH (mkWorld f1 (trace w ++ [Removing d])))
          as (evs & Ht & Hf & Hin).
        exists (Removing d :: evs). simpl in *. split.
        { by rewrite Ht, <- app_assoc. }
        split; [by rewrite Hf, Hrm|].
        intros d' Hd'. apply elem_of_cons in Hd' as [->|Hd']; [by left|].
        right. by apply Hin.
      * exists [Removing d]. simpl. split; [done|]. split; [by rewrite Hrm|].
        intros d' Hd'. apply elem_of_cons in Hd' as [->|Hd']; [by left|].
        by apply elem_of_nil in Hd'.
    + rewrite clean_dir_missing by done.
      destruct (IH (emit (Skipping d) w)) as (evs & Ht & Hf & Hin).
      exists (Skipping d :: evs). simpl in *. split.
      { by rewrite Ht, <- app_assoc. }
      split; [done|]. intros d' Hd'. right. by apply Hin.
Qed.

(** X12.  Outside dry-run, the filesystem [run] leaves is the one the
    inherited clean left with [remove_tree]'s deletion applied, in order,
    to the directories reported as removed, and each of those is one of the
    collected directories: nothing else is touched. *)
Theorem only_targets_removed self w w1 dir_names :
  dry_run self = false →
  clean_run (base self) false w = (w1, Ok tt) →
  collect_dir_names self (fs w1) = Ok dir_names →
  ∃ evs, trace (run self w).1 = trace w1 ++ evs ∧
         fs (run self w).1 =
           foldl (fun f d => (rmtree d f).1) (fs w1) (removed evs) ∧
         (∀ d, d ∈ removed evs → d ∈ dir_names).
Proof.
  intros Hdry Hbase Hcol.
  rewrite (run_after_base self w w1) by by rewrite Hdry.
  rewrite Hcol, Hdry.
  destruct (loop_wet_removed (set_iter dir_names) w1) as (evs & Ht & Hf & Hin).
  exists evs. split; [done|]. split; [done|].
  intros d Hd. apply elem_of_set_iter. by apply Hin.
Qed.

Lemma loop_wet_postcondition l w w' :
  removal_removes FS → removal_only_removes FS →
  for_each (clean_dir false) l w = (w', Ok tt) →
  (∀ p, path_exists (fs w') p = true → path_exists (fs w) p = true) ∧
  (∀ d, d ∈ l → path_exists (fs w') d = false).
Proof.
  intros Hrem Hmono. revert w. induction l as [|d l IH]; intros w.
  - simpl. intros [= <-]. split; [done|].
    intros d Hd. by apply elem_of_nil in Hd.
  - rewrite for_each_cons. destruct (path_exists (fs w) d) eqn:E.
    + rewrite clean_dir_wet by done.
      destruct (rmtree d (fs w)) as [f1 [[]|e]] eqn:Hrm; simpl; [|done].
      intros Hrest. destruct (IH _ Hrest) as [Hm Habs]. simpl in Hm.
      assert (∀ p, path_exists (fs w') p = true → path_exists (fs w) p = true)
        as Hm'.
      { intros p Hp. apply (Hmono d). rewrite Hrm. simpl. by apply Hm. }
      split; [done|]. intros d' Hd'.
      apply elem_of_cons in Hd' as [->|Hd']; [|by apply Habs].
      destruct (path_exists (fs w') d) eqn:E'; [|done].
      apply Hm in E'. by rewrite (Hrem d (fs w) f1 Hrm) in E'.
    + rewrite clean_dir_missing by done.
      intros Hrest. destruct (IH _ Hrest) as [Hm Habs]. simpl in Hm.
      split; [done|]. intros d' Hd'.
      apply elem_of_cons in Hd' as [->|Hd']; [|by apply Habs].
      destruct (path_exists (fs w') d) eqn:E'; [|done].
      apply Hm in E'. congruence.
Qed.

(** X13.  On a filesystem where a successful removal leaves its target
    absent and no removal creates a path, a non-dry [run] that returns
    normally leaves none of the collected directories in existence, and
    brings nothing into existence. *)
Theorem successful_run_leaves_no_target self w w1 w2 dir_names :
  removal_removes FS → removal_only_removes FS →
  dry_run self = false →
  clean_run (base self) false w = (w1, Ok tt) →
  collect_dir_names self (fs w1) = Ok dir_names →
  run self w = (w2, Ok tt) →
  (∀ d, d ∈ dir_names → path_exists (fs w2) d = false) ∧
  (∀ p, path_exists (fs w2) p = true → path_exists (fs w1) p = true).
Proof.
  intros Hrem Hmono Hdry Hbase Hcol.
  rewrite (run_after_base self w w1) by by rewrite Hdry.
  rewrite Hcol, Hdry. intros Hloop.
  destruct (loop_wet_postcondition _ _ _ Hrem Hmono Hloop) as [Hm Habs].
  split; [|done]. intros d Hd. apply Habs. by apply elem_of_set_iter.
Qed.

(** X14.  Running twice: after a non-dry [run] that returned normally, a
    second [run] whose inherited clean leaves the filesystem alone and
    which collects no directory the first did not collect finds them all
    absent: it raises nothing, changes nothing and reports a skip for each. *)
Theorem second_run_skips_everything self w w1 w2 w3 T1 T2 :
  removal_removes FS → removal_only_removes FS →
  dry_run self = false →
  clean_run (base self) false w = (w1, Ok tt) →
  collect_dir_names self (fs w1) = Ok T1 →
  run self w = (w2, Ok tt) →
  clean_run (base self) false w2 = (w3, Ok tt) →
  fs w3 = fs w2 →
  collect_dir_names self (fs w3) = Ok T2 →
  T2 ⊆ T1 →
  run self w2 =
  (mkWorld (fs w2) (trace w3 ++ List.map Skipping (set_iter T2)), Ok tt).
Proof.
  intros Hrem Hmono Hdry Hbase Hcol Hrun Hbase2 Hfs Hcol2 Hsub.
  assert (∀ d, d ∈ T1 → path_exists (fs w2) d = false) as Habs.
  { revert Hrun. rewrite (run_after_base self w w1) by by rewrite Hdry.
    rewrite Hcol, Hdry. intros Hloop.
    destruct (loop_wet_postcondition _ _ _ Hrem Hmono Hloop) as [_ Habs].
    intros d Hd. apply Habs. by apply elem_of_set_iter. }
  rewrite (run_after_base self w2 w3) by by rewrite Hdry.
  rewrite Hcol2, <- Hfs. apply loop_all_absent, Forall_forall.
  intros d Hd. rewrite Hfs. apply Habs, Hsub. by apply elem_of_set_iter.
Qed.

Lemma add_dist_dirs_app d cmds1 cmds2 X :
  add_dist_dirs d (cmds1 ++ cmds2) X =
  match add_dist_dirs d cmds1 X with
  | Ok Y => add_dist_dirs d cmds2 Y
  | Raise e => Raise e
  end.
Proof.
  revert X. induction cmds1 as [|[name desc] cmds1 IH]; intros X; simpl;
    [done|].
  destruct (PyStr.contains "dist" name); [|apply IH].
  destruct (get_command_obj d name) as [c|e]; simpl; [|done].
  destruct (ensure_finalized c) as [[]|e]; simpl; [|done].
  destruct (getattr_default c "dist_dir") as [|s]; [apply IH|].
  destruct (PyStr.nonempty s); apply IH.
Qed.

(** X15.  With [dist] set, the first registered command with ["dist"] in
    its name that cannot be obtained, or whose finalization raises, makes
    [run] raise that exception with the world as the inherited clean left
    it: nothing is removed or reported. *)
Theorem dist_failure_aborts_run self w w1 cmds1 name desc cmds2 e :
  dist self = true →
  clean_run (base self) (dry_run self) w = (w1, Ok tt) →
  get_command_list (distribution self) = cmds1 ++ (name, desc) :: cmds2 →
  (∀ n ds, (n, ds) ∈ cmds1 → PyStr.contains "dist" n = true →
     ∃ c, get_command_obj (distribution self) n = Ok c ∧
          ensure_finalized c = Ok tt) →
  PyStr.contains "dist" name = true →
  get_command_obj (distribution self) name = Raise e ∨
    (∃ c, get_command_obj (distribution self) name = Ok c ∧
          ensure_finalized c = Raise e) →
  run self w = (w1, Raise e).
Proof.
  intros Hd Hbase Hlist Hok Hname Hfail.
  rewrite (run_after_base self w w1) by done.
  unfold collect_dir_names, dist_step. unfold_monad.
  rewrite Hd, Hlist, add_dist_dirs_app.
  destruct (add_dist_dirs_spec (distribution self) cmds1 ∅ Hok) as (Y & HY & _).
  rewrite HY. simpl. rewrite Hname.
  destruct Hfail as [Hg|(c & Hg & Hf)].
  - by rewrite Hg.
  - rewrite Hg. simpl. by rewrite Hf.
Qed.

Lemma add_dist_dirs_ext d d' cmds X :
  (∀ name, PyStr.contains "dist" name = true →
     get_command_obj d' name = get_command_obj d name) →
  add_dist_dirs d' cmds X = add_dist_dirs d cmds X.
Proof.
  intros Hagree. revert X.
  induction cmds as [|[name desc] cmds IH]; intros X; simpl; [done|].
  destruct (PyStr.contains "dist" name) eqn:Ec; [|apply IH].
  rewrite (Hagree name Ec).
  destruct (get_command_obj d name) as [c|e]; simpl; [|done].
  destruct (ensure_finalized c) as [[]|e]; simpl; [|done].
  destruct (getattr_default c "dist_dir") as [|s]; [apply IH|].
  destruct (PyStr.nonempty s); apply IH.
Qed.

(** X16.  Commands without ["dist"] in their name are never looked up:
    two distributions with the same command list that agree on the
    commands with ["dist"] in their name give the same set of directory
    names (or the same exception). *)
Theorem other_commands_not_consulted self d' (f : FS) :
  get_command_list d' = get_command_list (distribution self) →
  (∀ name, PyStr.contains "dist" name = true →
     get_command_obj d' name = get_command_obj (distribution self) name) →
  collect_dir_names (set_distribution d' self) f = collect_dir_names self f.
Proof.
  intros Hlist Hagree.
  unfold collect_dir_names, dist_step, eggs_step, environment_step. simpl.
  rewrite Hlist. destruct (dist self); [|done].
  by rewrite (add_dist_dirs_ext (distribution self) d').
Qed.

End Running.

(** ** Properties of [_set_options] *)

Section ClassOptions.
Import Options.

Implicit Types (st : Classes) (U Bs : list item).

(** The whole effect of [_set_options] on a class store in which the base
    class carries both option lists. *)
Lemma set_options_spec st lu lb U Bs :
  base_dict st !! "user_options" = Some lu → heap st !! lu = Some U →
  base_dict st !! "boolean_options" = Some lb → heap st !! lb = Some Bs →
  ∃ st' lu' lb',
    _set_options st = (st', Ok tt) ∧
    base_dict st' = base_dict st ∧
    (∀ l xs, heap st !! l = Some xs → heap st' !! l = Some xs) ∧
    sub_dict st' !! "user_options" = Some lu' ∧
    sub_dict st' !! "boolean_options" = Some lb' ∧
    heap st !! lu' = None ∧ heap st !! lb' = None ∧ lu' ≠ lb' ∧
    heap st' !! lu' = Some (U ++ new_user_options) ∧
    heap st' !! lb' = Some (Bs ++ new_boolean_options).
Proof.
  intros Hlu HU Hlb HBs.
  set (l1 := fresh (dom (heap st))).
  assert (heap st !! l1 = None) as Hl1.
  { apply not_elem_of_dom. apply is_fresh. }
  set (h2 := <[l1 := U ++ new_user_options]> (<[l1 := U]> (heap st))).
  set (l2 := fresh (dom h2)).
  assert (h2 !! l2 = None) as Hl2.
  { apply not_elem_of_dom. apply is_fresh. }
  assert (l1 ≠ lb) as Hne1 by congruence.
  assert (l1 ≠ lu) as Hne1' by congruence.
  assert (h2 !! lb = Some Bs) as Hh2lb.
  { unfold h2. by rewrite !lookup_insert_ne. }
  assert (l2 ≠ l1) as Hne2.
  { intros E. rewrite E in Hl2. unfold h2 in Hl2.
    by rewrite lookup_insert_eq in Hl2. }
  assert (heap st !! l2 = None) as Hl2'.
  { unfold h2 in Hl2. by rewrite !lookup_insert_ne in Hl2. }
  exists (mkClasses (<[l2 := Bs ++ new_boolean_options]> (<[l2 := Bs]> h2))
            (base_dict st)
            (<["boolean_options" := l2]>
               (<["user_options" := l1]> (sub_dict st)))),
         l1, l2.
  split.
  { unfold _set_options, class_getattr, slice_copy, class_setattr,
      list_extend, resolve_attr. unfold_monad. simpl.
    rewrite Hlu, HU. simpl. rewrite lookup_insert_eq. simpl.
    rewrite lookup_insert_eq. simpl. rewrite Hlb. simpl. fold l1. fold h2.
    rewrite Hh2lb. simpl. rewrite lookup_insert_eq. simpl.
    fold l2. by rewrite lookup_insert_eq. }
  simpl. split; [done|]. split.
  { intros l xs Hl.
    assert (l ≠ l1) by congruence. assert (l ≠ l2) by congruence.
    unfold h2. by rewrite !lookup_insert_ne. }
  split.
  { rewrite lookup_insert_ne by done. apply lookup_insert_eq. }
  split; [apply lookup_insert_eq|].
  split; [done|]. split; [done|]. split; [by apply not_eq_sym|].
  split.
  - rewrite !lookup_insert_ne by done. unfold h2. apply lookup_insert_eq.
  - apply lookup_insert_eq.
Qed.

(** X17.  [_set_options] does not patch the base class: its attribute
    table and every list object that existed before are as they were, so
    the base's two option lists read the same, and the two attributes of
    the subclass denote list objects of their own, distinct from the
    base's. *)
Theorem set_options_leaves_base_alone st lu lb U Bs :
  base_dict st !! "user_options" = Some lu → heap st !! lu = Some U →
  base_dict st !! "boolean_options" = Some lb → heap st !! lb = Some Bs →
  base_dict (_set_options st).1 = base_dict st ∧
  (∀ l xs, heap st !! l = Some xs → heap (_set_options st).1 !! l = Some xs) ∧
  class_list Base "user_options" (_set_options st).1 = Some U ∧
  class_list Base "boolean_options" (_set_options st).1 = Some Bs ∧
  resolve_attr Sub "user_options" (_set_options st).1 ≠
    resolve_attr Base "user_options" (_set_options st).1 ∧
  resolve_attr Sub "boolean_options" (_set_options st).1 ≠
    resolve_attr Base "boolean_options" (_set_options st).1.
Proof.
  intros Hlu HU Hlb HBs.
  destruct (set_options_spec st lu lb U Bs Hlu HU Hlb HBs)
    as (st' & lu' & lb' & Hrun & Hbase & Hheap & Hsu & Hsb & Hfu & Hfb & _).
  rewrite Hrun. simpl. split; [done|]. split; [done|].
  unfold class_list, resolve_attr. rewrite Hbase, Hlu, Hlb, Hsu, Hsb. simpl.
  split; [by apply Hheap|]. split; [by apply Hheap|].
  split; intros [= ->]; congruence.
Qed.

(** X18.  [_set_options] returns normally and leaves [CleanCommand] with
    the base's options followed by its own five, and the base's boolean
    options followed by [dist], [eggs] and [environment]. *)
Theorem set_options_result st lu lb U Bs :
  base_dict st !! "user_options" = Some lu → heap st !! lu = Some U →
  base_dict st !! "boolean_options" = Some lb → heap st !! lb = Some Bs →
  (_set_options st).2 = Ok tt ∧
  class_list Sub "user_options" (_set_options st).1 =
    Some (U ++ new_user_options) ∧
  class_list Sub "boolean_options" (_set_options st).1 =
    Some (Bs ++ new_boolean_options).
Proof.
  intros Hlu HU Hlb HBs.
  destruct (set_options_spec st lu lb U Bs Hlu HU Hlb HBs)
    as (st' & lu' & lb' & Hrun & Hbase & Hheap & Hsu & Hsb & _ & _ & _ & Hu & Hb).
  rewrite Hrun. simpl. split; [done|].
  unfold class_list, resolve_attr. by rewrite Hsu, Hsb.
Qed.

(** X19.  Calling [_set_options] again does not add the options a second
    time: it copies from the base anew, so both classes read as after the
    first call. *)
Theorem set_options_idempotent st lu lb U Bs :
  base_dict st !! "user_options" = Some lu → heap st !! lu = Some U →
  base_dict st !! "boolean_options" = Some lb → heap st !! lb = Some Bs →
  (_set_options (_set_options st).1).2 = Ok tt ∧
  (∀ c attr, attr = "user_options" ∨ attr = "boolean_options" →
     class_list c attr (_set_options (_set_options st).1).1 =
     class_list c attr (_set_options st).1).
Proof.
  intros Hlu HU Hlb HBs.
  destruct (set_options_spec st lu lb U Bs Hlu HU Hlb HBs)
    as (st1 & lu1 & lb1 & Hrun & Hbase & Hheap & Hsu & Hsb & _ & _ & _ & Hu & Hb).
  rewrite Hrun. simpl.
  assert (base_dict st1 !! "user_options" = Some lu) as Hlu1 by by rewrite Hbase.
  assert (base_dict st1 !! "boolean_options" = Some lb) as Hlb1
    by by rewrite Hbase.
  destruct (set_options_spec st1 lu lb U Bs Hlu1 (Hheap _ _ HU) Hlb1
              (Hheap _ _ HBs))
    as (st2 & lu2 & lb2 & Hrun2 & Hbase2 & Hheap2 & Hsu2 & Hsb2 & _ & _ & _
        & Hu2 & Hb2).
  rewrite Hrun2. simpl. split; [done|].
  intros c attr Hattr. unfold class_list, resolve_attr.
  destruct c, Hattr as [->| ->]; simpl.
  - rewrite Hbase2, Hlu1. simpl. rewrite (Hheap _ _ HU).
    by apply Hheap2, Hheap.
  - rewrite Hbase2, Hlb1. simpl. rewrite (Hheap _ _ HBs).
    by apply Hheap2, Hheap.
  - rewrite Hsu2, Hsu. simpl. by rewrite Hu2, Hu.
  - rewrite Hsb2, Hsb. simpl. by rewrite Hb2, Hb.
Qed.

End ClassOptions.

(** ** The directory tree obeys the removal laws *)

Section TreeLaws.
Import TreeFS.

Implicit Types (es : list (string * node)) (t : node) (cs qs : list string).

Lemma find_drop_entry c es : find_entry c (drop_entry c es) = None.
Proof.
  induction es as [|[n x] es IH]; simpl; [done|].
  destruct (String.eqb n c) eqn:E; simpl; [done|]. by rewrite E.
Qed.

Lemma find_drop_entry_ne q c es :
  q ≠ c → find_entry q (drop_entry c es) = find_entry q es.
Proof.
  intros Hne. induction es as [|[n x] es IH]; simpl; [done|].
  destruct (String.eqb_spec n c) as [->|Hn]; simpl.
  - destruct (String.eqb_spec c q); [congruence|done].
  - by rewrite IH.
Qed.

Lemma find_set_entry c x es child :
  find_entry c es = Some child → find_entry c (set_entry c x es) = Some x.
Proof.
  induction es as [|[n y] es IH]; simpl; [done|].
  destruct (String.eqb_spec n c) as [->|Hn]; simpl.
  - by rewrite String.eqb_refl.
  - destruct (String.eqb_spec n c); [done|]. apply IH.
Qed.

Lemma find_set_entry_ne q c x es :
  q ≠ c → find_entry q (set_entry c x es) = find_entry q es.
Proof.
  intros Hne. induction es as [|[n y] es IH]; simpl; [done|].
  destruct (String.eqb_spec n c) as [->|Hn]; simpl.
  - destruct (String.eqb_spec c q); [congruence|done].
  - by rewrite IH.
Qed.

Lemma remove_at_gone cs t t' :
  remove_at cs t = Some t' → resolve cs t' = None.
Proof.
  revert t t'. induction cs as [|c cs IH]; intros t t'; [done|].
  destruct t as [|es]; [done|]. simpl.
  destruct (find_entry c es) as [child|] eqn:Ef; [|done].
  destruct cs as [|c2 cs].
  - destruct child; [done|]. intros [= <-]. simpl.
    by rewrite find_drop_entry.
  - destruct (remove_at (c2 :: cs) child) as [child'|] eqn:Er; [|done].
    intros [= <-]. change (resolve (c :: c2 :: cs) (Dir (set_entry c child' es)))
      with (match find_entry c (set_entry c child' es) with
            | Some ch => resolve (c2 :: cs) ch
            | None => None
            end).
    rewrite (find_set_entry c child' es child Ef). by apply (IH child).
Qed.

Lemma remove_at_only_removes cs t t' qs :
  remove_at cs t = Some t' → is_Some (resolve qs t') → is_Some (resolve qs t).
Proof.
  revert t t' qs. induction cs as [|c cs IH]; intros t t' qs; [done|].
  destruct t as [|es]; [done|]. simpl.
  destruct (find_entry c es) as [child|] eqn:Ef; [|done].
  destruct qs as [|q qs]; [by eauto|].
  destruct cs as [|c2 cs].
  - destruct child; [done|]. intros [= <-]. simpl.
    destruct (decide (q = c)) as [->|Hne].
    + rewrite find_drop_entry. by intros [? ?].
    + by rewrite find_drop_entry_ne.
  - destruct (remove_at (c2 :: cs) child) as [child'|] eqn:Er; [|done].
    intros [= <-]. simpl.
    destruct (decide (q = c)) as [->|Hne].
    + rewrite (find_set_entry c child' es child Ef), Ef. by apply IH.
    + by rewrite find_set_entry_ne.
Qed.

Lemma tree_removal_removes : removal_removes node.
Proof.
  intros d f f'. simpl. unfold rmtree_, exists_.
  destruct (remove_at (split d) f) as [t'|] eqn:Er; [|done].
  intros [= <-]. by rewrite (remove_at_gone _ _ _ Er).
Qed.

Lemma tree_removal_only_removes : removal_only_removes node.
Proof.
  intros d f p. simpl. unfold rmtree_, exists_.
  destruct (remove_at (split d) f) as [t'|] eqn:Er; simpl; [|done].
  destruct (resolve (split p) t') as [x|] eqn:Ex; [|done]. intros _.
  destruct (remove_at_only_removes (split d) f t' (split p) Er) as [y Hy];
    [by rewrite Ex|]. by rewrite Hy.
Qed.

End TreeLaws.

(** ** The further properties at work on the example project *)

Section WorkedFurther.
Import TreeFS Options.

Local Ltac member_cases H :=
  repeat (apply elem_of_union in H as [H|H]);
  apply elem_of_singleton in H; subst.

Example version_example : __version__ = "0.0.3".
Proof. reflexivity. Qed.

Lemma explicit_virtualenv_dir_kept_witness :
  virtualenv_dir
    (finalize_options Ex.venv
       (Ex.cmd false false false None true (Some "/opt/env"))).1
  = Some "/opt/env".
Proof.
  apply (explicit_virtualenv_dir_kept Ex.venv
           (Ex.cmd false false false None true (Some "/opt/env")) "/opt/env").
  reflexivity.
Defined.

Lemma environment_off_ignores_virtual_env_witness :
  finalize_options Ex.venv (Ex.cmd false false false None false (Some "/opt/env"))
  = finalize_options ∅ (Ex.cmd false false false None false (Some "/opt/env")) ∧
  virtualenv_dir
    (finalize_options Ex.venv
       (Ex.cmd false false false None false (Some "/opt/env"))).1
  = virtualenv_dir (Ex.cmd false false false None false (Some "/opt/env")) ∧
  (∀ X : gset string,
     environment_step
       (finalize_options Ex.venv
          (Ex.cmd false false false None false (Some "/opt/env"))).1 X = X).
Proof.
  apply (environment_off_ignores_virtual_env Ex.venv ∅
           (Ex.cmd false false false None false (Some "/opt/env"))).
  reflexivity.
Defined.

Lemma sibling_egg_base_adopted_witness :
  (finalize_options Ex.venv
     (Ex.cmd_in Ex.registry_src false false true None false None)).2 = Ok tt ∧
  egg_base
    (finalize_options Ex.venv
       (Ex.cmd_in Ex.registry_src false false true None false None)).1
  = Some (default os.curdir (to_option (VStr "src"))).
Proof.
  apply (sibling_egg_base_adopted Ex.venv
           (Ex.cmd_in Ex.registry_src false false true None false None) tt
           {| ensure_finalized := Ok tt;
              attrs := {[ "egg_base" := VStr "src" ]} |}
           (VStr "src")); reflexivity.
Defined.

Lemma finalize_options_idempotent_witness :
  same_options
    (finalize_options Ex.venv
       (finalize_options Ex.venv (Ex.cmd false false true None true None)).1).1
    (finalize_options Ex.venv (Ex.cmd false false true None true None)).1.
Proof.
  apply (finalize_options_idempotent Ex.venv
           (Ex.cmd false false true None true None)).
  reflexivity.
Defined.

Lemma failed_finalize_keeps_options_witness :
  same_options
    (finalize_options Ex.venv
       (Ex.cmd_in Ex.registry_bare false false true None true None)).1
    (Ex.cmd_in Ex.registry_bare false false true None true None).
Proof.
  apply (failed_finalize_keeps_options Ex.venv
           (Ex.cmd_in Ex.registry_bare false false true None true None)
           (AttributeError "egg_base")).
  reflexivity.
Defined.

(** A second run, on the world the first one left. *)
Lemma all_absent_all_skipped_witness :
  run (order := elements_order) (Ex.all_flags false) Ex2.world_after =
  (mkWorld (fs Ex2.world_after)
     (trace Ex2.world_after ++
      List.map Skipping (set_iter (SetOrder := elements_order)
                                  Ex2.targets_after)),
   Ok tt).
Proof.
  apply (all_absent_all_skipped (order := elements_order)
           (Ex.all_flags false) Ex2.world_after Ex2.world_after
           Ex2.targets_after).
  - reflexivity.
  - vm_compute. reflexivity.
  - intros d Hd. unfold Ex2.targets_after in Hd. member_cases Hd; reflexivity.
Defined.

(** [--dist --environment --virtualenv-dir=nowhere] in dry-run. *)
Lemma dry_run_reports_witness :
  run (order := elements_order)
      (Ex.cmd true true false None true (Some "nowhere")) Ex.world =
  (mkWorld Ex.tree
     ([] ++ List.map (report Ex.tree)
              (set_iter (SetOrder := elements_order)
                        {[ "dist"; "build/out"; "nowhere" ]})),
   Ok tt).
Proof.
  apply (dry_run_reports (order := elements_order)
           (Ex.cmd true true false None true (Some "nowhere"))
           Ex.world Ex.world {[ "dist"; "build/out"; "nowhere" ]}).
  - reflexivity.
  - reflexivity.
  - vm_compute. reflexivity.
Defined.

(** An egg that is a zip file exists but cannot be removed as a tree. *)
Lemma failed_removal_aborts_witness :
  for_each (clean_dir false) (["dist"] ++ "baz.egg" :: ["build/out"])
           (mkWorld Ex2.tree_zipped []) =
  (mkWorld (Dir [("baz.egg", File); ("build", Dir [("out", Dir [])])])
           ([Removing "dist"] ++ [Removing "baz.egg"]),
   Raise (OSError "cannot remove")).
Proof.
  apply (failed_removal_aborts ["dist"] "baz.egg" ["build/out"]
           (mkWorld Ex2.tree_zipped [])
           (mkWorld (Dir [("baz.egg", File); ("build", Dir [("out", Dir [])])])
                    [Removing "dist"])
           (Dir [("baz.egg", File); ("build", Dir [("out", Dir [])])])
           (OSError "cannot remove")); reflexivity.
Defined.

Lemma success_reports_every_target_witness :
  ∃ evs, trace Ex2.world_after = [] ++ evs ∧
         processed evs = set_iter (SetOrder := elements_order) Ex.all_targets ∧
         (∀ d, d ∈ Ex.all_targets ↔ d ∈ processed evs).
Proof.
  apply (success_reports_every_target (order := elements_order)
           (Ex.all_flags false) Ex.world Ex.world Ex2.world_after
           Ex.all_targets).
  - reflexivity.
  - vm_compute. reflexivity.
  - vm_compute. reflexivity.
Defined.

Lemma only_targets_removed_witness :
  ∃ evs,
    trace (run (order := elements_order) (Ex.all_flags false) Ex.world).1 =
      [] ++ evs ∧
    fs (run (order := elements_order) (Ex.all_flags false) Ex.world).1 =
      foldl (fun f d => (rmtree d f).1) Ex.tree (removed evs) ∧
    (∀ d, d ∈ removed evs → d ∈ Ex.all_targets).
Proof.
  apply (only_targets_removed (order := elements_order)
           (Ex.all_flags false) Ex.world Ex.world Ex.all_targets).
  - reflexivity.
  - reflexivity.
  - vm_compute. reflexivity.
Defined.

Lemma successful_run_leaves_no_target_witness :
  (∀ d, d ∈ Ex.all_targets → path_exists (fs Ex2.world_after) d = false) ∧
  (∀ p, path_exists (fs Ex2.world_after) p = true →
        path_exists Ex.tree p = true).
Proof.
  apply (successful_run_leaves_no_target (order := elements_order)
           (Ex.all_flags false) Ex.world Ex.world Ex2.world_after
           Ex.all_targets).
  - apply tree_removal_removes.
  - apply tree_removal_only_removes.
  - reflexivity.
  - reflexivity.
  - vm_compute. reflexivity.
  - vm_compute. reflexivity.
Defined.

Lemma second_run_skips_everything_witness :
  run (order := elements_order) (Ex.all_flags false) Ex2.world_after =
  (mkWorld (fs Ex2.world_after)
     (trace Ex2.world_after ++
      List.map Skipping (set_iter (SetOrder := elements_order)
                                  Ex2.targets_after)),
   Ok tt).
Proof.
  apply (second_run_skips_everything (order := elements_order)
           (Ex.all_flags false) Ex.world Ex.world Ex2.world_after
           Ex2.world_after Ex.all_targets Ex2.targets_after).
  - apply tree_removal_removes.
  - apply tree_removal_only_removes.
  - reflexivity.
  - reflexivity.
  - vm_compute. reflexivity.
  - vm_compute. reflexivity.
  - reflexivity.
  - reflexivity.
  - vm_compute. reflexivity.
  - intros d Hd. unfold Ex2.targets_after in Hd. unfold Ex.all_targets.
    member_cases Hd; set_solver.
Defined.

Lemma dist_failure_aborts_run_witness :
  run (order := elements_order)
      (Ex.cmd_in Ex2.registry_broken false true true None true (Some "/tmp/venv"))
      Ex.world
  = (Ex.world, Raise (DistutilsError "cannot set up 'bdist_msi'")).
Proof.
  apply (dist_failure_aborts_run (order := elements_order)
           (Ex.cmd_in Ex2.registry_broken false true true None true
                      (Some "/tmp/venv"))
           Ex.world Ex.world
           [("sdist", "source distribution")] "bdist_msi" "MSI installer"
           [("bdist", "built distribution")]
           (DistutilsError "cannot set up 'bdist_msi'")).
  - reflexivity.
  - reflexivity.
  - reflexivity.
  - intros n ds Hin _.
    apply elem_of_cons in Hin as [Hin|Hin];
      [injection Hin as -> ->; eexists; split; reflexivity|].
    by apply elem_of_nil in Hin.
  - reflexivity.
  - left. reflexivity.
Defined.

Lemma other_commands_not_consulted_witness :
  collect_dir_names
    (set_distribution Ex2.registry_strict (Ex.all_flags false)) Ex.tree
  = collect_dir_names (Ex.all_flags false) Ex.tree.
Proof.
  apply (other_commands_not_consulted (Ex.all_flags false)
           Ex2.registry_strict Ex.tree).
  - reflexivity.
  - intros name Hc. simpl.
    destruct (String.eqb_spec name "build") as [->|_]; [discriminate|done].
Defined.

Lemma set_options_leaves_base_alone_witness :
  base_dict (_set_options Ex2.classes).1 = base_dict Ex2.classes ∧
  (∀ l xs, heap Ex2.classes !! l = Some xs →
           heap (_set_options Ex2.classes).1 !! l = Some xs) ∧
  class_list Base "user_options" (_set_options Ex2.classes).1 =
    Some Ex2.clean_user_options ∧
  class_list Base "boolean_options" (_set_options Ex2.classes).1 =
    Some Ex2.clean_boolean_options ∧
  resolve_attr Sub "user_options" (_set_options Ex2.classes).1 ≠
    resolve_attr Base "user_options" (_set_options Ex2.classes).1 ∧
  resolve_attr Sub "boolean_options" (_set_options Ex2.classes).1 ≠
    resolve_attr Base "boolean_options" (_set_options Ex2.classes).1.
Proof.
  apply (set_options_leaves_base_alone Ex2.classes 0 1
           Ex2.clean_user_options Ex2.clean_boolean_options);
    vm_compute; reflexivity.
Defined.

Lemma set_options_result_witness :
  (_set_options Ex2.classes).2 = Ok tt ∧
  class_list Sub "user_options" (_set_options Ex2.classes).1 =
    Some (Ex2.clean_user_options ++ new_user_options) ∧
  class_list Sub "boolean_options" (_set_options Ex2.classes).1 =
    Some (Ex2.clean_boolean_options ++ new_boolean_options).
Proof.
  apply (set_options_result Ex2.classes 0 1
           Ex2.clean_user_options Ex2.clean_boolean_options);
    vm_compute; reflexivity.
Defined.

Lemma set_options_idempotent_witness :
  (_set_options (_set_options Ex2.classes).1).2 = Ok tt ∧
  (∀ c attr, attr = "user_options" ∨ attr = "boolean_options" →
     class_list c attr (_set_options (_set_options Ex2.classes).1).1 =
     class_list c attr (_set_options Ex2.classes).1).
Proof.
  apply (set_options_idempotent Ex2.classes 0 1
           Ex2.clean_user_options Ex2.clean_boolean_options);
    vm_compute; reflexivity.
Defined.

End WorkedFurther.
